(** * batch_approve_base_mt.py: a shallow embedding and its properties

    The script approves an ERC20 allowance and sends a [buy] call for a
    list of market contracts, once per wallet, each wallet in a thread of
    its own.  This file embeds the functions of the script as Rocq
    functions and proves properties of them.

    Conventions of the embedding:
    - a Python [int] is a [Z]; a Python [float] is an IEEE 754 binary64
      value, [spec_float] with precision 53 and maximal exponent 1024;
    - a Python [str] is a [string]; its characters stand for code points
      below 256;
    - a call that may raise returns a [result]; code that also mutates
      local variables or talks to the RPC node lives in the monad [M],
      which threads the local state and the list of observable events;
    - answers of the RPC node, of the file system and of [random] are
      inputs of the model (the records [target_script] and [world]);
    - [print] is left out: it changes no variable and is taken not to
      raise. *)

From Stdlib Require Import ZArith List Bool String Ascii Lia Sorted.
From Stdlib Require Import Floats.SpecFloat.
Import ListNotations.
Open Scope string_scope.
Open Scope list_scope.
Open Scope Z_scope.

Set Implicit Arguments.

(** ** Exceptions *)

Inductive exn : Type :=
| FileNotFoundError
| OverflowError
| ValueError
| RuntimeError
| TimeExhausted
| TypeError
| ZeroDivisionError
| RpcError (code : Z).

Inductive result (A : Type) : Type :=
| Ok (a : A)
| Raise (e : exn).

Arguments Ok {A} a.
Arguments Raise {A} e.

Definition is_ok {A} (r : result A) : bool :=
  match r with Ok _ => true | Raise _ => false end.

(** ** Python floats *)

Module PyFloat.

Definition float := spec_float.

Definition prec : Z := 53.
Definition emax : Z := 1024.

Definition mul : float -> float -> float := SFmul prec emax.
Definition add : float -> float -> float := SFadd prec emax.
Definition div : float -> float -> float := SFdiv prec emax.

(** The binary64 value nearest to the integer [n], ties to even. *)
Definition round_int (n : Z) : float := binary_normalize prec emax n 0 false.

(** [float(n)] for an [int]: [OverflowError] when it does not fit. *)
Definition of_int (n : Z) : result float :=
  match round_int n with
  | S754_infinity _ => Raise OverflowError
  | f => Ok f
  end.

(** [int(x)] for a [float]: truncation towards zero. *)
Definition to_int (x : float) : result Z :=
  match x with
  | S754_zero _ => Ok 0
  | S754_infinity _ => Raise OverflowError
  | S754_nan => Raise ValueError
  | S754_finite s m e =>
      let a := match e with
               | Zneg p => Z.shiftr (Zpos m) (Zpos p)
               | _ => Z.shiftl (Zpos m) e
               end in
      Ok (if s then - a else a)
  end.

(** A literal [n/d] with small [n] and [d] (0.1, 0.4, 0.5, 0.8): the
    parser yields the binary64 value nearest to the quotient, which is
    what the correctly rounded division of the two integers gives. *)
Definition literal (n d : Z) : float := div (round_int n) (round_int d).

(** [n + x] and [x * n] for an [int] n: the int is converted first. *)
Definition int_add (n : Z) (x : float) : result float :=
  match of_int n with
  | Ok f => Ok (add f x)
  | Raise e => Raise e
  end.

Definition mul_int (x : float) (n : Z) : result float :=
  match of_int n with
  | Ok f => Ok (mul x f)
  | Raise e => Raise e
  end.

End PyFloat.

(** ** Configuration constants of the script *)

Definition TOKEN_ADDRESS : string := "0x833589fcd6edb6e08f4c7c32d4f71b54bda02913".
Definition TOKEN_DECIMALS : Z := 6.
Definition CHAIN_ID : Z := 8453.
Definition MAX_WORKERS : Z := 24.

Definition DO_APPROVE : bool := true.
Definition GAS_LIMIT_APPROVE : Z := 120000.
Definition USE_MAX_ALLOWANCE : bool := true.
Definition MAX_UINT256 : Z := 2 ^ 256 - 1.
Definition ALLOWANCE_THRESHOLD : Z := MAX_UINT256 / 2.
Definition CHECK_ALLOWANCE : bool := true.

Definition DO_BUY : bool := true.
Definition GAS_LIMIT_BUY : Z := 250000.
Definition BUY_INVESTMENT_HUMAN : PyFloat.float := PyFloat.literal 1 10.
Definition BUY_OUTCOME_INDEX : Z := 0.
Definition BUY_MIN_OUTCOME_TOKENS : Z := 0.

Definition SEND_RETRIES : Z := 2.
Definition RETRY_SLEEP : Z := 5.
Definition SLEEP_BETWEEN_TX : PyFloat.float := PyFloat.literal 8 10.

(** ** [to_smallest_unit]

    [int(amount_human * (10 ** decimals))].  [decimals] is a natural
    number: with a negative exponent Python's [**] yields a float, a case
    the script never meets. *)

Definition to_smallest_unit (amount_human : PyFloat.float) (decimals : N)
  : result Z :=
  match PyFloat.mul_int amount_human (10 ^ Z.of_N decimals) with
  | Ok p => PyFloat.to_int p
  | Raise e => Raise e
  end.

(** ** Strings: [str.strip], [str.startswith], truth value *)

Module PyStr.

(** [c.isspace()] for a code point below 256. *)
Definition is_space (c : ascii) : bool :=
  let n := N.to_nat (N_of_ascii c) in
  (Nat.leb 9 n && Nat.leb n 13) || (Nat.leb 28 n && Nat.leb n 32)
  || Nat.eqb n 133 || Nat.eqb n 160.

Fixpoint lstrip (s : string) : string :=
  match s with
  | EmptyString => EmptyString
  | String c r => if is_space c then lstrip r else s
  end.

Fixpoint rstrip (s : string) : string :=
  match s with
  | EmptyString => EmptyString
  | String c r =>
      match rstrip r with
      | EmptyString => if is_space c then EmptyString else String c EmptyString
      | r' => String c r'
      end
  end.

Definition strip (s : string) : string := lstrip (rstrip s).

(** [bool(s)]: a string is falsy exactly when it is empty. *)
Definition truthy (s : string) : bool :=
  match s with EmptyString => false | _ => true end.

Definition startswith (s p : string) : bool := String.prefix p s.

(** [a in l] for a list of strings. *)
Definition mem (a : string) (l : list string) : bool :=
  existsb (String.eqb a) l.

End PyStr.

(** ** [load_private_keys]

    The file is given as the list of its lines, [None] when the path does
    not exist. *)

Fixpoint load_private_keys_loop (lines : list string) (keys : list string)
  : list string :=
  match lines with
  | [] => keys
  | line :: rest =>
      let s := PyStr.strip line in
      if negb (PyStr.truthy s) then load_private_keys_loop rest keys
      else
        let s := if negb (PyStr.startswith s "0x") then ("0x" ++ s)%string else s in
        load_private_keys_loop rest (keys ++ [s])
  end.

(** What the loop does to one stripped, non-empty line. *)
Definition with_0x_prefix (s : string) : string :=
  if PyStr.startswith s "0x" then s else ("0x" ++ s)%string.

Definition load_private_keys (file : option (list string))
  : result (list string) :=
  match file with
  | None => Raise FileNotFoundError
  | Some lines => Ok (load_private_keys_loop lines [])
  end.

(** ** [load_proxies] *)

Fixpoint load_proxies_loop (lines : list string) (proxies : list string)
  : list string :=
  match lines with
  | [] => proxies
  | line :: rest =>
      let u := PyStr.strip line in
      if PyStr.truthy u && negb (PyStr.startswith u "#")
      then load_proxies_loop rest (proxies ++ [u])
      else load_proxies_loop rest proxies
  end.

Definition load_proxies (file : option (list string)) : list string :=
  match file with
  | None => []
  | Some lines => load_proxies_loop lines []
  end.

(** ** [_prepare_oracle_map_from_markets]

    The returned dict is kept as the list of its items in insertion
    order, which is the order in which [wallet_worker] walks it. *)

Fixpoint prepare_uniq_loop (market_addresses : list string) (uniq : list string)
  : list string :=
  match market_addresses with
  | [] => uniq
  | a :: rest =>
      if negb (PyStr.truthy a) then prepare_uniq_loop rest uniq
      else if negb (PyStr.mem a uniq) then prepare_uniq_loop rest (uniq ++ [a])
      else prepare_uniq_loop rest uniq
  end.

Definition _prepare_oracle_map_from_markets (market_addresses : list string)
  : list (Z * list string) :=
  [(0, prepare_uniq_loop market_addresses [])].

(** The list of duplicates-free first occurrences, as a specification:
    keep the head and erase it from what the tail gives. *)
Fixpoint keep_first_occurrences (l : list string) : list string :=
  match l with
  | [] => []
  | a :: rest => a :: remove string_dec a (keep_first_occurrences rest)
  end.

(** ** Proxy assignment *)

Definition proxy_for_index (proxies : list string) (i : Z) : option string :=
  match proxies with
  | [] => None
  | _ => nth_error proxies (Z.to_nat ((i - 1) mod Z.of_nat (List.length proxies)))
  end.

(** [enumerate(l, start)] *)
Fixpoint enumerate {A} (start : Z) (l : list A) : list (Z * A) :=
  match l with
  | [] => []
  | x :: r => (start, x) :: enumerate (start + 1) r
  end.

(** The proxies handed to the workers, in the order of submission. *)
Definition assigned_proxies (proxies : list string) (workers : list string)
  : list (option string) :=
  map (fun ip => proxy_for_index proxies (fst ip)) (enumerate 1 workers).

(** ** Transactions, events and the worker's local state *)

(** A [uint256] returned by a contract call: the 32-byte word read as an
    unsigned number. *)
Definition uint256 (word : Z) : Z := word mod 2 ^ 256.

(** The two encoded calls of [ERC20_ABI] and [MARKET_ABI]. *)
Inductive call : Type :=
| approve (_spender : string) (_value : Z)
| buy (investmentAmount outcomeIndex minOutcomeTokensToBuy : Z).

Record tx : Type := mk_tx {
  tx_to : string;
  tx_from : string;
  tx_data : call;
  tx_value : Z;
  tx_nonce : Z;
  tx_gas : Z;
  tx_gasPrice : Z;
  tx_chainId : Z
}.

(** A signed payload determines the transaction and the key. *)
Record signed : Type := mk_signed {
  raw_transaction : tx;
  signer : string
}.

Definition txhash : Type := Z.

(** What the outside world sees of a run. *)
Inductive event : Type :=
| EvSend (attempt : Z) (raw : signed) (r : result txhash)
| EvReceipt (h : txhash) (r : result Z)
| EvSleep (seconds : PyFloat.float).

(** The local variables of [wallet_worker]; [iter] counts the loop
    iterations begun, [trace] lists the events so far. *)
Record wstate : Type := mk_wstate {
  nonce : Z;
  sent_approve : Z;
  sent_buy : Z;
  skipped_approve : Z;
  iter : nat;
  trace : list event
}.

Definition init_wstate : wstate := mk_wstate 0 0 0 0 0 [].

(** ** The monad of effectful code: local state, events, exceptions.
    An exception keeps the state reached, as in Python. *)

Definition M (A : Type) : Type := wstate -> result A * wstate.

Definition ret {A} (a : A) : M A := fun s => (Ok a, s).

Definition bind {A B} (m : M A) (k : A -> M B) : M B :=
  fun s => match m s with
           | (Ok a, s') => k a s'
           | (Raise e, s') => (Raise e, s')
           end.

Definition raise {A} (e : exn) : M A := fun s => (Raise e, s).

Definition lift {A} (r : result A) : M A := fun s => (r, s).

(** [try: m  except Exception as e: h e] *)
Definition try_except {A} (m : M A) (h : exn -> M A) : M A :=
  fun s => match m s with
           | (Ok a, s') => (Ok a, s')
           | (Raise e, s') => h e s'
           end.

Definition get : M wstate := fun s => (Ok s, s).

Definition modify (f : wstate -> wstate) : M unit := fun s => (Ok tt, f s).

Definition emit (e : event) : M unit :=
  modify (fun s => mk_wstate (nonce s) (sent_approve s) (sent_buy s)
                     (skipped_approve s) (iter s) (trace s ++ [e])).

Declare Scope monad_scope.
Delimit Scope monad_scope with M.
Notation "x <- m ;; k" := (bind m (fun x => k))
  (at level 61, m at next level, right associativity) : monad_scope.
Notation "m ;; k" := (bind m (fun _ => k))
  (at level 61, right associativity) : monad_scope.
Open Scope monad_scope.

(** [for x in l: body x] *)
Fixpoint for_each {A} (l : list A) (body : A -> M unit) : M unit :=
  match l with
  | [] => ret tt
  | x :: r => body x ;; for_each r body
  end.

(** [range(lo, hi)] *)
Definition py_range (lo hi : Z) : list Z :=
  map (fun k => lo + Z.of_nat k) (seq 0 (Z.to_nat (hi - lo))).

Definition sleep (seconds : PyFloat.float) : M unit := emit (EvSleep seconds).

(** [nonce += 1], [sent_approve += 1], ... *)
Definition incr_nonce : M unit :=
  modify (fun s => mk_wstate (nonce s + 1) (sent_approve s) (sent_buy s)
                     (skipped_approve s) (iter s) (trace s)).
Definition incr_sent_approve : M unit :=
  modify (fun s => mk_wstate (nonce s) (sent_approve s + 1) (sent_buy s)
                     (skipped_approve s) (iter s) (trace s)).
Definition incr_sent_buy : M unit :=
  modify (fun s => mk_wstate (nonce s) (sent_approve s) (sent_buy s + 1)
                     (skipped_approve s) (iter s) (trace s)).
Definition incr_skipped_approve : M unit :=
  modify (fun s => mk_wstate (nonce s) (sent_approve s) (sent_buy s)
                     (skipped_approve s + 1) (iter s) (trace s)).
Definition set_nonce (n : Z) : M unit :=
  modify (fun s => mk_wstate n (sent_approve s) (sent_buy s)
                     (skipped_approve s) (iter s) (trace s)).
Definition next_iter : M nat :=
  fun s => (Ok (iter s),
            mk_wstate (nonce s) (sent_approve s) (sent_buy s)
              (skipped_approve s) (S (iter s)) (trace s)).

(** ** The node as the code sees it *)

(** The token contract at the time of one loop iteration: the words its
    two views return, or the exception of the call. *)
Record token_contract : Type := mk_token {
  allowance : string -> string -> result Z;
  balanceOf : string -> result Z
}.

(** [token_contract.functions.allowance(owner, spender).call()] *)
Definition call_allowance (t : token_contract) (owner spender : string)
  : result Z :=
  match allowance t owner spender with
  | Ok w => Ok (uint256 w)
  | Raise e => Raise e
  end.

(** [token.functions.balanceOf(addr).call()] *)
Definition call_balanceOf (t : token_contract) (addr : string) : result Z :=
  match balanceOf t addr with
  | Ok w => Ok (uint256 w)
  | Raise e => Raise e
  end.

(** ** [allowance_enough] *)

Definition allowance_enough (token_contract : token_contract)
  (owner spender : string) : M bool :=
  try_except
    (val <- lift (call_allowance token_contract owner spender) ;;
     ret (ALLOWANCE_THRESHOLD <=? val))
    (fun e => ret false).

(** ** [send_raw_with_retry]

    [send k] is the answer of [w3.eth.send_raw_transaction] at the k-th
    attempt, [rnd k] the value of [random.random()] drawn after it. *)

Fixpoint send_raw_loop (send : Z -> result txhash) (rnd : Z -> PyFloat.float)
  (raw : signed) (attempts : list Z) (last_err : option exn) : M txhash :=
  match attempts with
  | [] =>
      match last_err with
      | Some e => raise e
      | None => raise TypeError
      end
  | attempt :: rest =>
      match send attempt with
      | Ok h => emit (EvSend attempt raw (Ok h)) ;; ret h
      | Raise e =>
          emit (EvSend attempt raw (Raise e)) ;;
          sleep_s <- lift (PyFloat.int_add (RETRY_SLEEP * attempt) (rnd attempt)) ;;
          sleep sleep_s ;;
          send_raw_loop send rnd raw rest (Some e)
      end
  end.

Definition send_raw_with_retry (send : Z -> result txhash)
  (rnd : Z -> PyFloat.float) (raw : signed) : M txhash :=
  send_raw_loop send rnd raw (py_range 1 (SEND_RETRIES + 1)) None.

(** ** [wallet_worker] *)

(** The answers of the node and of [random] during one iteration of the
    loop over the markets: one field per call the iteration may make. *)
Record target_script : Type := mk_script {
  token_view : token_contract;
  approve_gas_price : result Z;
  approve_build : result unit;
  approve_sign : result unit;
  approve_send : Z -> result txhash;
  approve_rnd : Z -> PyFloat.float;
  approve_receipt : result Z;
  buy_gas_price : result Z;
  buy_build : result unit;
  buy_sign : result unit;
  buy_send : Z -> result txhash;
  buy_rnd : Z -> PyFloat.float;
  pause_rnd : PyFloat.float
}.

(** The world of one worker: whether the RPC answers through the given
    proxy, the pending nonce, and the script of the k-th iteration. *)
Record world : Type := mk_world {
  connected : option string -> bool;
  pending_nonce : result Z;
  script : nat -> target_script
}.

(** [a / b] on two ints gives a float and raises when the quotient is
    beyond the floats; the script only prints the quotient, so the model
    keeps whether the division raises. *)
Definition py_truediv_check (a b : Z) : result unit :=
  if b =? 0 then Raise ZeroDivisionError
  else if (2 ^ 1024 - 2 ^ 970) * Z.abs b <=? Z.abs a then Raise OverflowError
  else Ok tt.

(** [w3.eth.wait_for_transaction_receipt(tx_hash, ...)], then
    [receipt.status]. *)
Definition wait_for_transaction_receipt (sc : target_script) (tx_hash : txhash)
  : M Z :=
  emit (EvReceipt tx_hash (approve_receipt sc)) ;; lift (approve_receipt sc).

Section Worker.

(** [w3.to_checksum_address] and [w3.eth.account.from_key(pk).address]:
    functions of their argument alone, which may raise. *)
Variable to_checksum_address : string -> result string.
Variable address_of_key : string -> result string.

(** Step 1 of the loop body: the approval. *)
Definition approve_step (sc : target_script) (pk addr token_cs market_cs : string)
  : M unit :=
  if DO_APPROVE then
    enough <- (if CHECK_ALLOWANCE
               then allowance_enough (token_view sc) addr market_cs
               else ret false) ;;
    if (enough : bool) then incr_skipped_approve
    else
      try_except
        (gas_price <- lift (approve_gas_price sc) ;;
         let amount := if USE_MAX_ALLOWANCE then MAX_UINT256
                       else ALLOWANCE_THRESHOLD in
         s <- get ;;
         lift (approve_build sc) ;;
         let approve_tx :=
           mk_tx token_cs addr (approve market_cs amount) 0 (nonce s)
             GAS_LIMIT_APPROVE gas_price CHAIN_ID in
         lift (approve_sign sc) ;;
         let signed := mk_signed approve_tx pk in
         tx_hash <- send_raw_with_retry (approve_send sc) (approve_rnd sc) signed ;;
         try_except
           (status <- wait_for_transaction_receipt sc tx_hash ;;
            if status =? 1 then incr_nonce ;; incr_sent_approve
            else ret tt)
           (fun e => ret tt))
        (fun e => sleep (PyFloat.literal 1 2))
  else ret tt.

(** Step 2 of the loop body: the buy. *)
Definition buy_step (sc : target_script) (pk addr market_cs : string)
  (buy_amount_smallest buy_outcome_index buy_min_tokens : Z) : M unit :=
  if DO_BUY then
    try_except
      (gas_price <- lift (buy_gas_price sc) ;;
       lift (buy_build sc) ;;
       let buy_tx_data :=
         buy buy_amount_smallest buy_outcome_index buy_amount_smallest in
       s <- get ;;
       let buy_tx :=
         mk_tx market_cs addr buy_tx_data 0 (nonce s)
           GAS_LIMIT_BUY gas_price CHAIN_ID in
       lift (buy_sign sc) ;;
       let signed := mk_signed buy_tx pk in
       tx_hash <- send_raw_with_retry (buy_send sc) (buy_rnd sc) signed ;;
       incr_nonce ;;
       incr_sent_buy ;;
       sleep (PyFloat.add SLEEP_BETWEEN_TX
                (PyFloat.mul (pause_rnd sc) (PyFloat.literal 4 10))))
      (fun e => sleep (PyFloat.literal 1 2))
  else ret tt.

(** The body of the inner loop, for one market address. *)
Definition target_body (w : world) (pk addr token_cs : string)
  (buy_amount_smallest buy_outcome_index buy_min_tokens : Z)
  (market_addr : string) : M unit :=
  k <- next_iter ;;
  let sc := script w k in
  market_cs <- lift (to_checksum_address market_addr) ;;
  token_balance <- lift (call_balanceOf (token_view sc) addr) ;;
  lift (py_truediv_check token_balance (10 ^ TOKEN_DECIMALS)) ;;
  lift (py_truediv_check buy_amount_smallest (10 ^ TOKEN_DECIMALS)) ;;
  if token_balance <? buy_amount_smallest then ret tt
  else
    approve_step sc pk addr token_cs market_cs ;;
    buy_step sc pk addr market_cs
      buy_amount_smallest buy_outcome_index buy_min_tokens.

Definition wallet_loop (w : world) (pk addr token_cs : string)
  (buy_amount_smallest buy_outcome_index buy_min_tokens : Z)
  (spenders_by_oracle : list (Z * list string)) : M unit :=
  for_each spenders_by_oracle (fun item =>
    for_each (snd item)
      (target_body w pk addr token_cs
         buy_amount_smallest buy_outcome_index buy_min_tokens)).

Definition wallet_worker (w : world) (pk : string)
  (spenders_by_oracle : list (Z * list string)) (token_addr : string)
  (buy_amount_smallest buy_outcome_index buy_min_tokens : Z)
  (proxy_url : option string) : M (string * Z * Z * Z) :=
  (if connected w proxy_url then ret tt else raise RuntimeError) ;;
  addr <- lift (address_of_key pk) ;;
  token_cs <- lift (to_checksum_address token_addr) ;;
  match pending_nonce w with
  | Raise e => ret (addr, 0, 0, 0)
  | Ok n =>
      set_nonce n ;;
      wallet_loop w pk addr token_cs
        buy_amount_smallest buy_outcome_index buy_min_tokens
        spenders_by_oracle ;;
      s <- get ;;
      ret (addr, sent_approve s, sent_buy s, skipped_approve s)
  end.

End Worker.

(** ** What a trace tells *)

(** The transactions the node accepted, in order. *)
Definition sent_txs (t : list event) : list tx :=
  flat_map (fun e => match e with
                     | EvSend _ raw (Ok _) => [raw_transaction raw]
                     | _ => []
                     end) t.

Definition sent_nonces (t : list event) : list Z := map tx_nonce (sent_txs t).

(** Every call of [send_raw_transaction], accepted or not. *)
Definition send_attempts (t : list event) : list (Z * tx) :=
  flat_map (fun e => match e with
                     | EvSend k raw _ => [(k, raw_transaction raw)]
                     | _ => []
                     end) t.

(** The outcomes of the waits for a receipt. *)
Definition receipts (t : list event) : list (result Z) :=
  flat_map (fun e => match e with
                     | EvReceipt _ r => [r]
                     | _ => []
                     end) t.

Definition receipt_confirmed (r : result Z) : bool :=
  match r with
  | Ok status => status =? 1
  | Raise _ => false
  end.

Definition is_buy (t : tx) : bool :=
  match tx_data t with buy _ _ _ => true | approve _ _ => false end.

(** The third argument of a [buy] call. *)
Definition min_tokens_of (t : tx) : option Z :=
  match tx_data t with
  | buy _ _ m => Some m
  | approve _ _ => None
  end.

(** ** The tasks submitted by [run_for_markets]

    [run_for_markets] hands one call of [wallet_worker] per key to the
    thread pool; a [task] records the arguments of that call.  The key
    file and the proxy file are given as for [load_private_keys]. *)

Record task : Type := mk_task {
  task_pk : string;
  task_spenders : list (Z * list string);
  task_token_addr : string;
  task_buy_amount_smallest : Z;
  task_buy_index : Z;
  task_buy_min_tokens : Z;
  task_proxy : option string
}.

(** [ThreadPoolExecutor(max_workers=n)] raises [ValueError] unless [n] is
    positive. *)
Definition thread_pool (n : Z) : result unit :=
  if n <=? 0 then Raise ValueError else Ok tt.

Definition run_for_markets_tasks (market_addresses : list string)
  (token_address : string) (buy_investment_human : PyFloat.float)
  (buy_outcome_index : Z) (proxies : option (list string))
  (max_workers : option Z)
  (proxies_file keys_file : option (list string)) : result (list task) :=
  let token_addr :=
    if PyStr.truthy token_address then token_address else TOKEN_ADDRESS in
  let decimals := TOKEN_DECIMALS in
  match to_smallest_unit buy_investment_human (Z.to_N decimals) with
  | Raise e => Raise e
  | Ok buy_amount_smallest =>
      let buy_index := buy_outcome_index in
      let local_proxies :=
        match proxies with
        | Some l => l
        | None => load_proxies proxies_file
        end in
      let spenders_map := _prepare_oracle_map_from_markets market_addresses in
      match load_private_keys keys_file with
      | Raise e => Raise e
      | Ok [] => Raise RuntimeError
      | Ok workers =>
          let use_max_workers :=
            match max_workers with
            | None => MAX_WORKERS
            | Some n => if n =? 0 then MAX_WORKERS else n
            end in
          match thread_pool use_max_workers with
          | Raise e => Raise e
          | Ok _ =>
              Ok (map (fun ip =>
                         mk_task (snd ip) spenders_map token_addr
                           buy_amount_smallest buy_index BUY_MIN_OUTCOME_TOKENS
                           (proxy_for_index local_proxies (fst ip)))
                    (enumerate 1 workers))
          end
      end
  end.

(** ** Vocabulary of the statements *)

(** The state [s] with the events [evs] appended to its trace. *)
Definition add_events (s : wstate) (evs : list event) : wstate :=
  mk_wstate (nonce s) (sent_approve s) (sent_buy s) (skipped_approve s)
    (iter s) (trace s ++ evs).

Definition bump (b : bool) : Z := if b then 1 else 0.

(** The state after the approval step: [confirmed] tells whether a
    receipt with status 1 was obtained, [skipped] whether the allowance
    was found sufficient. *)
Definition after_approve (s : wstate) (confirmed skipped : bool)
  (evs : list event) : wstate :=
  mk_wstate (nonce s + bump confirmed) (sent_approve s + bump confirmed)
    (sent_buy s) (skipped_approve s + bump skipped) (iter s) (trace s ++ evs).

(** The state after the buy step: [sent] tells whether the node accepted
    the transaction. *)
Definition after_buy (s : wstate) (sent : bool) (evs : list event) : wstate :=
  mk_wstate (nonce s + bump sent) (sent_approve s) (sent_buy s + bump sent)
    (skipped_approve s) (iter s) (trace s ++ evs).

(** The state after an iteration that touched nothing but the iteration
    counter. *)
Definition after_skip (s : wstate) : wstate :=
  mk_wstate (nonce s) (sent_approve s) (sent_buy s) (skipped_approve s)
    (S (iter s)) (trace s).

Definition all_confirmed (evs : list event) : Prop :=
  Forall (fun r => receipt_confirmed r = true) (receipts evs).

Definition some_confirmed (evs : list event) : bool :=
  existsb receipt_confirmed (receipts evs).

Definition strictly_increasing (l : list Z) : Prop :=
  StronglySorted Z.lt l /\ NoDup l.

Definition nondecreasing (l : list Z) : Prop := StronglySorted Z.le l.

(** A transaction is either an approve or the buy call with the given
    three arguments. *)
Definition approve_or_buy (a i m : Z) (t : tx) : Prop :=
  match tx_data t with
  | approve _ _ => True
  | buy a' i' m' => a' = a /\ i' = i /\ m' = m
  end.

(** What one stretch of a run, from [s] to [s'] with the events [evs],
    guarantees about the nonces and the calls of the transactions the
    node accepted. *)
Record run_rel (amount index : Z) (s : wstate) (evs : list event)
  (s' : wstate) : Prop := mk_run_rel {
  rr_trace : trace s' = trace s ++ evs;
  rr_nonce : nonce s <= nonce s';
  rr_le : nondecreasing (sent_nonces evs) /\
          Forall (fun n => nonce s <= n <= nonce s') (sent_nonces evs);
  rr_lt : all_confirmed evs ->
          StronglySorted Z.lt (sent_nonces evs) /\
          Forall (fun n => nonce s <= n < nonce s') (sent_nonces evs);
  rr_calls : Forall (approve_or_buy amount index amount) (sent_txs evs)
}.

(** An effectful computation all of whose runs are such stretches. *)
Definition respects {A} (amount index : Z) (m : M A) : Prop :=
  forall s, exists evs, run_rel amount index s evs (snd (m s)).

(** The pause of [send_raw_with_retry] after its [k]-th failed attempt:
    [RETRY_SLEEP * k + random.random()]. *)
Definition retry_pause (rnd : Z -> PyFloat.float) (k : Z) : event :=
  EvSleep (PyFloat.add (PyFloat.round_int (RETRY_SLEEP * k)) (rnd k)).

Definition is_nil {A} (l : list A) : bool :=
  match l with [] => true | _ => false end.

(** The events of one approval step run at nonce [n]: nothing accepted
    and no receipt awaited, or one approve accepted with nonce [n] and the
    one receipt of the script awaited. *)
Definition approve_events_ok (sc : target_script) (n : Z) (evs : list event)
  : Prop :=
  (sent_txs evs = [] /\ receipts evs = []) \/
  (exists t, sent_txs evs = [t] /\ receipts evs = [approve_receipt sc] /\
             tx_nonce t = n /\ is_buy t = false /\
             is_ok (approve_send sc 1) || is_ok (approve_send sc 2) = true).

(** ** A concrete world, for the examples

    One account with pending nonce 5 and a balance of one token; the
    allowance is zero, so every iteration sends an approve; the node
    accepts every transaction at the first attempt; [receipt] is what the
    wait for the approve's receipt gives; the gas price read before the
    approve is [gp_approve], the one read before the buy [gp_buy]. *)

Definition ex_token (balance : Z) : token_contract :=
  mk_token (fun _ _ => Ok 0) (fun _ => Ok balance).

Definition ex_script (balance : Z) (receipt : result Z) (gp_approve gp_buy : Z)
  : target_script :=
  mk_script (ex_token balance)
    (Ok gp_approve) (Ok tt) (Ok tt) (fun _ => Ok 11)
    (fun _ => S754_zero false) receipt
    (Ok gp_buy) (Ok tt) (Ok tt) (fun _ => Ok 22)
    (fun _ => S754_zero false) (S754_zero false).

Definition ex_world (balance : Z) (receipt : result Z) (gp_approve gp_buy : Z)
  : world :=
  mk_world (fun _ => true) (Ok 5)
    (fun _ => ex_script balance receipt gp_approve gp_buy).

(** Addresses already in checksum form; one address for every key. *)
Definition ex_checksum (a : string) : result string := Ok a.
Definition ex_address (pk : string) : result string := Ok "0xAcc".

Definition ex_run (w : world) (markets : list string)
  (buy_amount_smallest buy_outcome_index buy_min_tokens : Z)
  : result (string * Z * Z * Z) * wstate :=
  wallet_worker ex_checksum ex_address w "0x01" [(0, markets)] TOKEN_ADDRESS
    buy_amount_smallest buy_outcome_index buy_min_tokens None init_wstate.

(** A computation that begins at most [n] iterations of the loop. *)
Definition begins_at_most {A} (n : nat) (m : M A) : Prop :=
  forall s, (iter (snd (m s)) <= iter s + n)%nat.

(** ** [ensure_checksum_list] *)

(** [list(dict.fromkeys(res))]: the keys of a dict filled in the order of
    [res]; a key met again keeps its first place. *)
Fixpoint dict_fromkeys_loop (res : list string) (keys : list string)
  : list string :=
  match res with
  | [] => keys
  | a :: rest =>
      if PyStr.mem a keys then dict_fromkeys_loop rest keys
      else dict_fromkeys_loop rest (keys ++ [a])
  end.

Definition dict_fromkeys (res : list string) : list string :=
  dict_fromkeys_loop res [].

Section Checksum.

Variable to_checksum_address : string -> result string.

Fixpoint ensure_checksum_loop (addresses : list string) (res : list string)
  : list string :=
  match addresses with
  | [] => res
  | a :: rest =>
      match to_checksum_address a with
      | Ok c => ensure_checksum_loop rest (res ++ [c])
      | Raise _ => ensure_checksum_loop rest res
      end
  end.

Definition ensure_checksum_list (addresses : list string) : list string :=
  dict_fromkeys (ensure_checksum_loop addresses []).

(** The addresses of the list that convert, converted, in order. *)
Fixpoint checksums_of (addresses : list string) : list string :=
  match addresses with
  | [] => []
  | a :: rest =>
      match to_checksum_address a with
      | Ok c => c :: checksums_of rest
      | Raise _ => checksums_of rest
      end
  end.

End Checksum.

(** ** [fetch_markets_for_oracle]

    [ALL_MARKET] is a dict from oracle ids to addresses, kept as the list
    of its items in insertion order.  [get k] is what the k-th request
    yields: the address found at [data['market']['address']], or the
    exception raised on the way to it. *)

Definition market_dict : Type := list (Z * string).

(** [d[k] = v] *)
Fixpoint dict_set (d : market_dict) (k : Z) (v : string) : market_dict :=
  match d with
  | [] => [(k, v)]
  | (k', v') :: r =>
      if k' =? k then (k, v) :: r else (k', v') :: dict_set r k v
  end.

(** [d[k]], [None] standing for [KeyError] *)
Fixpoint dict_get (d : market_dict) (k : Z) : option string :=
  match d with
  | [] => None
  | (k', v) :: r => if k' =? k then Some v else dict_get r k
  end.

Inductive fetch_event : Type :=
| FetchGet (attempt : Z) (r : result string)
| FetchSleep (seconds : PyFloat.float)
| FetchPrint (e : exn).

Fixpoint fetch_loop (get : Z -> result string) (oracle_id : Z)
  (attempts : list Z) (ALL_MARKET : market_dict)
  : result unit * market_dict * list fetch_event :=
  match attempts with
  | [] => (Ok tt, ALL_MARKET, [])
  | attempt :: rest =>
      match get attempt with
      | Ok address =>
          (Ok tt, dict_set ALL_MARKET oracle_id address,
           [FetchGet attempt (Ok address)])
      | Raise e =>
          if attempt <? 3 then
            match PyFloat.mul_int (PyFloat.literal 1 1) attempt with
            | Raise e' => (Raise e', ALL_MARKET, [FetchGet attempt (Raise e)])
            | Ok seconds =>
                let '(r, d, evs) := fetch_loop get oracle_id rest ALL_MARKET in
                (r, d, FetchGet attempt (Raise e) :: FetchSleep seconds :: evs)
            end
          else
            let '(r, d, evs) := fetch_loop get oracle_id rest ALL_MARKET in
            (r, d, FetchGet attempt (Raise e) :: FetchPrint e :: evs)
      end
  end.

Definition fetch_markets_for_oracle (get : Z -> result string) (oracle_id : Z)
  (ALL_MARKET : market_dict)
  : result unit * market_dict * list fetch_event :=
  fetch_loop get oracle_id (py_range 1 4) ALL_MARKET.

Definition fetch_requests (evs : list fetch_event) : list Z :=
  flat_map (fun e => match e with FetchGet k _ => [k] | _ => [] end) evs.

Definition fetch_sleeps (evs : list fetch_event) : list PyFloat.float :=
  flat_map (fun e => match e with FetchSleep d => [d] | _ => [] end) evs.

(** The answer of the first request that succeeds among the three. *)
Definition first_answer (get : Z -> result string) : option string :=
  match get 1 with
  | Ok a => Some a
  | Raise _ =>
      match get 2 with
      | Ok a => Some a
      | Raise _ =>
          match get 3 with
          | Ok a => Some a
          | Raise _ => None
          end
      end
  end.

(** ** [start_by_address] *)

Definition start_by_address_tasks (address : string)
  (buy_investment_human : PyFloat.float) (buy_outcome_index : Z)
  (proxies_file keys_file : option (list string)) : result (list task) :=
  if negb (PyStr.truthy address) then Raise ValueError
  else
    let markets := [address] in
    run_for_markets_tasks markets TOKEN_ADDRESS buy_investment_human
      buy_outcome_index None None proxies_file keys_file.

(** ** Vocabulary of the further statements *)

(** A computation each of whose runs appends some events [evs] to the
    trace and relates the states before and after by [R]. *)
Definition stretch {A} (R : wstate -> list event -> wstate -> Prop) (m : M A)
  : Prop :=
  forall s, exists evs,
    trace (snd (m s)) = trace s ++ evs /\ R s evs (snd (m s)).

(** Numbers of accepted buys, of accepted approves and of receipts with
    status 1 among some events. *)
Definition count_buys (evs : list event) : Z :=
  Z.of_nat (List.length (filter is_buy (sent_txs evs))).

Definition count_approves (evs : list event) : Z :=
  Z.of_nat (List.length (filter (fun t => negb (is_buy t)) (sent_txs evs))).

Definition count_confirmed (evs : list event) : Z :=
  Z.of_nat (List.length (filter receipt_confirmed (receipts evs))).

(** The bookkeeping of the worker over a stretch of a run. *)
Record accounts (s : wstate) (evs : list event) (s' : wstate) : Prop :=
  mk_accounts {
  acc_nonce : nonce s' = nonce s + count_confirmed evs + count_buys evs;
  acc_approve : sent_approve s' = sent_approve s + count_confirmed evs;
  acc_buy : sent_buy s' = sent_buy s + count_buys evs;
  acc_confirmed : count_confirmed evs <= count_approves evs;
  acc_skipped : skipped_approve s <= skipped_approve s'
}.

(** A transaction of the account [addr] on the token [token_cs] for one of
    the markets [targets]: no value attached, the chain of the script,
    and either the maximal approve for a market or a buy sent to a
    market, each with its gas limit. *)
Definition tx_wf (to_checksum_address : string -> result string)
  (addr token_cs : string) (targets : list string) (t : tx) : Prop :=
  tx_from t = addr /\ tx_value t = 0 /\ tx_chainId t = CHAIN_ID /\
  match tx_data t with
  | approve spender value =>
      tx_to t = token_cs /\ value = MAX_UINT256 /\
      tx_gas t = GAS_LIMIT_APPROVE /\
      exists m, In m targets /\ to_checksum_address m = Ok spender
  | buy _ _ _ =>
      tx_gas t = GAS_LIMIT_BUY /\
      exists m, In m targets /\ to_checksum_address m = Ok (tx_to t)
  end.

(** The markets of a map, in the order the worker walks them. *)
Definition targets_of (spenders_by_oracle : list (Z * list string))
  : list string :=
  List.concat (map snd spenders_by_oracle).

(** What the approval step run at nonce [n] did: it skipped the approve,
    the allowance being sufficient, and produced no event; or it did not
    skip, and then either no approve was accepted and no receipt awaited,
    or the node accepted the maximal approve with nonce [n] at the gas
    price read, and its receipt was awaited. *)
Definition approve_outcome (sc : target_script)
  (addr token_cs market_cs : string) (n : Z) (skipped : bool)
  (evs : list event) : Prop :=
  (skipped = true /\ evs = [] /\
   exists v, call_allowance (token_view sc) addr market_cs = Ok v /\
             ALLOWANCE_THRESHOLD <= v) \/
  (skipped = false /\
   ((sent_txs evs = [] /\ receipts evs = []) \/
    (exists gp,
        approve_gas_price sc = Ok gp /\
        sent_txs evs = [mk_tx token_cs addr (approve market_cs MAX_UINT256) 0 n
                          GAS_LIMIT_APPROVE gp CHAIN_ID] /\
        receipts evs = [approve_receipt sc]))).

(** The bounds that one loop iteration puts on what is sent. *)
Record per_iteration (s : wstate) (evs : list event) (s' : wstate) : Prop :=
  mk_per_iteration {
  pi_iter : (iter s <= iter s')%nat;
  pi_skipped : skipped_approve s <= skipped_approve s';
  pi_buys : count_buys evs <= Z.of_nat (iter s') - Z.of_nat (iter s);
  pi_approves :
    count_approves evs + (skipped_approve s' - skipped_approve s)
    <= Z.of_nat (iter s') - Z.of_nat (iter s)
}.

(** ** The approval step in terms of the node's answers *)

(** The allowance read succeeds and is at or above the threshold. *)
Definition allowance_sufficient (sc : target_script) (addr market_cs : string)
  : bool :=
  match call_allowance (token_view sc) addr market_cs with
  | Ok v => ALLOWANCE_THRESHOLD <=? v
  | Raise _ => false
  end.

(** The node accepts the approve: the allowance is not found sufficient,
    the gas price is read, the transaction is built and signed, and the
    first or the second send succeeds. *)
Definition approve_accepted (sc : target_script) (addr market_cs : string)
  : bool :=
  negb (allowance_sufficient sc addr market_cs)
  && is_ok (approve_gas_price sc) && is_ok (approve_build sc)
  && is_ok (approve_sign sc)
  && (is_ok (approve_send sc 1) || is_ok (approve_send sc 2)).

(** The node accepts the approve and the receipt obtained has status 1. *)
Definition approve_confirmed (sc : target_script) (addr market_cs : string)
  : bool :=
  approve_accepted sc addr market_cs && receipt_confirmed (approve_receipt sc).

(** ** The nonce rule of the worker

    Walk the events with a counter that starts at [n]: every transaction
    the node accepts carries the counter as its nonce; the counter
    advances by one after an accepted buy and after a receipt with status
    1, and stays after an accepted approve and after any other receipt. *)
Fixpoint nonce_rule (n : Z) (evs : list event) : Prop :=
  match evs with
  | [] => True
  | EvSend _ raw (Ok _) :: rest =>
      tx_nonce (raw_transaction raw) = n /\
      nonce_rule (n + bump (is_buy (raw_transaction raw))) rest
  | EvReceipt _ r :: rest => nonce_rule (n + bump (receipt_confirmed r)) rest
  | _ :: rest => nonce_rule n rest
  end.

(** The pending nonce a run starts from, 0 standing for a failed read
    (the run then sends nothing). *)
Definition start_nonce (w : world) : Z :=
  match pending_nonce w with
  | Ok n => n
  | Raise _ => 0
  end.

(** ** Markets and the spellings of their addresses *)

(** The market a transaction is for: the spender of an approve, the
    recipient of a buy. *)
Definition tx_market (t : tx) : string :=
  match tx_data t with
  | approve spender _ => spender
  | buy _ _ _ => tx_to t
  end.

(** The accepted buys, and the accepted approves, for the market [c]. *)
Definition count_buys_for (c : string) (evs : list event) : nat :=
  List.length (filter (fun t => is_buy t && String.eqb (tx_market t) c)
                 (sent_txs evs)).

Definition count_approves_for (c : string) (evs : list event) : nat :=
  List.length (filter (fun t => negb (is_buy t) && String.eqb (tx_market t) c)
                 (sent_txs evs)).

(** The string [m] converts to the address [c]. *)
Definition converts_to (to_checksum_address : string -> result string)
  (c m : string) : bool :=
  match to_checksum_address m with
  | Ok c' => String.eqb c' c
  | Raise _ => false
  end.

(** A computation that appends events of which at most [n] count. *)
Definition counts_at_most {A} (cnt : list event -> nat) (n : nat) (m : M A)
  : Prop :=
  forall s, exists evs, trace (snd (m s)) = trace s ++ evs /\ (cnt evs <= n)%nat.

(** Two spellings of one address, the first example of EIP-55: all in
    lower case and in checksum form; [to_checksum_address] gives the
    checksum form for both, and leaves the checksum form of the token
    address of the script as it is. *)
Definition ex_market_lower : string :=
  "0x5aaeb6053f3e94c9b9a09f33669435e7ef1beaed".
Definition ex_market_cs : string :=
  "0x5aAeb6053F3E94C9b9A09f33669435E7Ef1BeAed".
Definition ex_token_cs : string :=
  "0x833589fCD6eDb6E08f4c7C32D4f71b54bdA02913".

Definition ex_checksum_spellings (a : string) : result string :=
  if String.eqb a ex_market_lower then Ok ex_market_cs
  else if String.eqb a ex_market_cs then Ok ex_market_cs
  else if String.eqb a ex_token_cs then Ok ex_token_cs
  else Raise ValueError.

(** A world for the two spellings: at the first iteration the allowance
    is zero and the approve is confirmed; at the second the allowance
    read gives the maximum just approved. *)
Definition ex_world_spellings : world :=
  mk_world (fun _ => true) (Ok 5)
    (fun k =>
       match k with
       | O => ex_script 1000000 (Ok 1) 100 100
       | S _ =>
           mk_script
             (mk_token (fun _ _ => Ok MAX_UINT256) (fun _ => Ok 900000))
             (Ok 100) (Ok tt) (Ok tt) (fun _ => Ok 11)
             (fun _ => S754_zero false) (Ok 1)
             (Ok 100) (Ok tt) (Ok tt) (fun _ => Ok 22)
             (fun _ => S754_zero false) (S754_zero false)
       end).

(** * Properties *)

(** ** Smallest-unit conversion *)

(** The literal [0.1] is the double 0x3FB999999999999A. *)
Example literal_tenth :
  PyFloat.literal 1 10 = S754_finite false 0x1999999999999A (-56).
Proof. vm_compute. reflexivity. Qed.

(** C7. [to_smallest_unit(0.1, 6)] is 100000 and [to_smallest_unit(0.1, 18)]
    is 100000000000000000, both computed in binary64 arithmetic as the
    source does: [int(0.1 * 10**decimals)]. *)
Theorem to_smallest_unit_tenth :
  to_smallest_unit (PyFloat.literal 1 10) 6 = Ok 100000 /\
  to_smallest_unit (PyFloat.literal 1 10) 18 = Ok 100000000000000000.
Proof. split; vm_compute; reflexivity. Qed.

(** The conversion truncates: [int(0.29 * 100)] is 28. *)
Example to_smallest_unit_truncates :
  to_smallest_unit (PyFloat.literal 29 100) 2 = Ok 28.
Proof. vm_compute. reflexivity. Qed.

(** ** Key loading *)

Section KeyLoading.

Lemma startswith_0x_append (s : string) :
  PyStr.startswith ("0x" ++ s) "0x" = true.
Proof.
  unfold PyStr.startswith. simpl.
  repeat (match goal with
          | |- context [ascii_dec ?a ?b] => destruct (ascii_dec a b)
          end; try congruence).
  destruct s; reflexivity.
Qed.

Lemma with_0x_prefix_startswith (s : string) :
  PyStr.startswith (with_0x_prefix s) "0x" = true.
Proof.
  unfold with_0x_prefix.
  destruct (PyStr.startswith s "0x") eqn:E; [exact E|].
  apply startswith_0x_append.
Qed.

Lemma load_private_keys_loop_spec (lines keys : list string) :
  load_private_keys_loop lines keys =
  keys ++ map with_0x_prefix (filter PyStr.truthy (map PyStr.strip lines)).
Proof.
  revert keys. induction lines as [|line rest IH]; intros keys; simpl.
  - now rewrite app_nil_r.
  - destruct (PyStr.truthy (PyStr.strip line)) eqn:T; simpl.
    + rewrite IH, <- app_assoc. simpl. unfold with_0x_prefix.
      now destruct (PyStr.startswith (PyStr.strip line) "0x").
    + apply IH.
Qed.

End KeyLoading.

(** C10. [load_private_keys] returns, in file order, the stripped
    non-blank lines of the file, each with "0x" put in front unless it
    starts with "0x" already; a blank line (one that strips to the empty
    string) gives nothing; every key returned starts with "0x". *)
Theorem load_private_keys_spec (lines : list string) :
  load_private_keys (Some lines) =
    Ok (map with_0x_prefix (filter PyStr.truthy (map PyStr.strip lines))) /\
  Forall (fun k => PyStr.startswith k "0x" = true)
    (map with_0x_prefix (filter PyStr.truthy (map PyStr.strip lines))).
Proof.
  split.
  - unfold load_private_keys. now rewrite load_private_keys_loop_spec.
  - apply Forall_forall. intros k Hk. apply in_map_iff in Hk.
    destruct Hk as [s [<- _]]. apply with_0x_prefix_startswith.
Qed.

Example load_private_keys_example :
  load_private_keys
    (Some ["abc"; ""; "  0xdef  "; "   "; String (ascii_of_nat 10) ""; "0x12"])
  = Ok ["0xabc"; "0xdef"; "0x12"].
Proof. vm_compute. reflexivity. Qed.

(** ** Deduplication of the market list *)

Section Dedup.

Lemma mem_true_iff (a : string) (l : list string) :
  PyStr.mem a l = true <-> In a l.
Proof.
  unfold PyStr.mem. rewrite existsb_exists. split.
  - intros [x [Hx E]]. apply String.eqb_eq in E. now subst.
  - intros H. exists a. split; [exact H|apply String.eqb_refl].
Qed.

Lemma mem_snoc (x a : string) (acc : list string) :
  PyStr.mem x (acc ++ [a]) = PyStr.mem x acc || String.eqb x a.
Proof.
  unfold PyStr.mem. rewrite existsb_app. simpl. now rewrite orb_false_r.
Qed.

Lemma remove_twice (a : string) (l : list string) :
  remove string_dec a (remove string_dec a l) = remove string_dec a l.
Proof. apply notin_remove, remove_In. Qed.

Lemma remove_keep_first (a : string) (l : list string) :
  remove string_dec a (keep_first_occurrences l) =
  keep_first_occurrences (remove string_dec a l).
Proof.
  induction l as [|b r IH]; [reflexivity|].
  simpl. destruct (string_dec a b) as [->|N]; simpl.
  - now rewrite remove_twice.
  - now rewrite remove_remove_comm, IH.
Qed.

Lemma remove_filter (a : string) (P : string -> bool) (l : list string) :
  remove string_dec a (filter P l) =
  filter (fun x => P x && negb (String.eqb x a)) l.
Proof.
  induction l as [|b r IH]; [reflexivity|].
  simpl. destruct (P b); simpl.
  - destruct (string_dec a b) as [->|N].
    + now rewrite String.eqb_refl.
    + destruct (String.eqb_spec b a); [congruence|]. simpl. now f_equal.
  - exact IH.
Qed.

Lemma prepare_uniq_loop_spec (l acc : list string) :
  prepare_uniq_loop l acc =
  acc ++ keep_first_occurrences
           (filter (fun x => PyStr.truthy x && negb (PyStr.mem x acc)) l).
Proof.
  revert acc. induction l as [|a r IH]; intros acc; simpl.
  - now rewrite app_nil_r.
  - destruct (PyStr.truthy a); simpl; [|apply IH].
    destruct (PyStr.mem a acc) eqn:Hm; simpl; [apply IH|].
    rewrite IH, <- app_assoc. simpl. do 2 f_equal.
    rewrite remove_keep_first, remove_filter. f_equal.
    apply filter_ext. intros x. rewrite mem_snoc.
    destruct (PyStr.truthy x), (PyStr.mem x acc), (String.eqb x a);
      reflexivity.
Qed.

Lemma NoDup_remove_string (a : string) (l : list string) :
  NoDup l -> NoDup (remove string_dec a l).
Proof.
  induction 1 as [|b r Hb Hr IH]; simpl; [constructor|].
  destruct (string_dec a b); [exact IH|].
  constructor; [|exact IH].
  intros Hin. apply in_remove in Hin. now destruct Hin.
Qed.

Lemma keep_first_NoDup (l : list string) : NoDup (keep_first_occurrences l).
Proof.
  induction l as [|a r IH]; simpl; constructor.
  - apply remove_In.
  - now apply NoDup_remove_string.
Qed.

Lemma keep_first_In (x : string) (l : list string) :
  In x (keep_first_occurrences l) <-> In x l.
Proof.
  induction l as [|a r IH]; simpl; [tauto|].
  split.
  - intros [->|H]; [now left|].
    apply in_remove in H. right. now apply IH.
  - intros [->|H]; [now left|].
    destruct (string_dec a x) as [->|N]; [now left|].
    right. apply in_in_remove; [congruence|now apply IH].
Qed.

(** On a list without repetition nothing is erased and the order is
    kept. *)
Lemma keep_first_id (l : list string) :
  NoDup l -> keep_first_occurrences l = l.
Proof.
  induction 1 as [|a r Ha Hr IH]; simpl; [reflexivity|].
  rewrite IH. f_equal. now apply notin_remove.
Qed.

Lemma NoDup_count_le_1 (l : list string) (a : string) :
  NoDup l -> (count_occ string_dec l a <= 1)%nat.
Proof.
  intros H. now apply (proj1 (NoDup_count_occ string_dec l)).
Qed.

End Dedup.

Example prepare_oracle_map_example :
  _prepare_oracle_map_from_markets ["0xA"; ""; "0xB"; "0xA"; "0xC"; "0xB"]
  = [(0, ["0xA"; "0xB"; "0xC"])].
Proof. reflexivity. Qed.

(** ** Proxy assignment *)

Section Proxies.

Lemma nth_error_enumerate {A} (l : list A) (start : Z) (k : nat) :
  nth_error (enumerate start l) k =
  option_map (fun x => (start + Z.of_nat k, x)) (nth_error l k).
Proof.
  revert start k. induction l as [|x r IH]; intros start [|k]; simpl;
    try reflexivity.
  - now rewrite Z.add_0_r.
  - rewrite IH. destruct (nth_error r k); simpl; [|reflexivity].
    do 2 f_equal. lia.
Qed.

Lemma nth_error_assigned (proxies workers : list string) (k : nat) (pk : string) :
  nth_error workers k = Some pk ->
  nth_error (assigned_proxies proxies workers) k =
  Some (proxy_for_index proxies (Z.of_nat k + 1)).
Proof.
  intros H. unfold assigned_proxies.
  rewrite nth_error_map, nth_error_enumerate, H. cbn [option_map fst].
  now rewrite (Z.add_comm 1).
Qed.

End Proxies.

(** C8. The proxy of the account at 1-based position [i] is
    [proxies[(i-1) mod len(proxies)]] when the proxy list is not empty and
    [None] when it is; two proxies and five accounts give
    [p0, p1, p0, p1, p0]; and these are the proxies of the tasks that
    [run_for_markets] submits. *)
Theorem proxy_round_robin :
  (forall (proxies workers : list string) (i : Z) (pk : string),
      1 <= i ->
      nth_error workers (Z.to_nat (i - 1)) = Some pk ->
      proxies <> [] ->
      exists p,
        nth_error proxies (Z.to_nat ((i - 1) mod Z.of_nat (List.length proxies)))
          = Some p /\
        nth_error (assigned_proxies proxies workers) (Z.to_nat (i - 1))
          = Some (Some p)) /\
  (forall (workers : list string) (i : Z) (pk : string),
      1 <= i ->
      nth_error workers (Z.to_nat (i - 1)) = Some pk ->
      nth_error (assigned_proxies [] workers) (Z.to_nat (i - 1)) = Some None) /\
  (forall p0 p1 k1 k2 k3 k4 k5 : string,
      assigned_proxies [p0; p1] [k1; k2; k3; k4; k5]
      = [Some p0; Some p1; Some p0; Some p1; Some p0]) /\
  (forall market_addresses token_address amount index proxies max_workers
          proxies_file keys tasks,
      run_for_markets_tasks market_addresses token_address amount index
        proxies max_workers proxies_file (Some keys) = Ok tasks ->
      map task_proxy tasks =
      assigned_proxies
        (match proxies with Some l => l | None => load_proxies proxies_file end)
        (load_private_keys_loop keys [])).
Proof.
  repeat split.
  - intros proxies workers i pk Hi Hw Hp.
    rewrite (nth_error_assigned proxies _ _ Hw).
    replace (Z.of_nat (Z.to_nat (i - 1)) + 1) with i by lia.
    unfold proxy_for_index. destruct proxies as [|q qs]; [congruence|].
    set (l := q :: qs) in *.
    destruct (nth_error l (Z.to_nat ((i - 1) mod Z.of_nat (List.length l))))
      as [p|] eqn:E.
    + exists p. split; reflexivity.
    + exfalso. apply nth_error_None in E.
      assert (0 < Z.of_nat (List.length l)) by (subst l; simpl; lia).
      pose proof (Z.mod_pos_bound (i - 1) (Z.of_nat (List.length l)) H). lia.
  - intros workers i pk Hi Hw.
    now rewrite (nth_error_assigned [] _ _ Hw).
  - intros market_addresses token_address amount index proxies max_workers
      proxies_file keys tasks.
    unfold run_for_markets_tasks.
    destruct (to_smallest_unit _ _); [|discriminate].
    unfold load_private_keys.
    destruct (load_private_keys_loop keys []) as [|k ks]; [discriminate|].
    destruct (thread_pool _); [|discriminate].
    unfold assigned_proxies. generalize (enumerate 1 (k :: ks)).
    intros ips H. injection H as <-. now rewrite map_map.
Qed.

(** The third of three accounts, with two proxies, gets the first proxy. *)
Lemma proxy_round_robin_witness :
  exists p,
    nth_error ["p0"; "p1"] (Z.to_nat ((3 - 1) mod Z.of_nat (List.length ["p0"; "p1"])))
      = Some p /\
    nth_error (assigned_proxies ["p0"; "p1"] ["k1"; "k2"; "k3"]) (Z.to_nat (3 - 1))
      = Some (Some p).
Proof.
  refine (proj1 proxy_round_robin ["p0"; "p1"] ["k1"; "k2"; "k3"] 3 "k3" _ _ _).
  - discriminate.
  - reflexivity.
  - discriminate.
Defined.

(** ** The monad, the retry loop and the worker *)

Arguments PyFloat.add : simpl never.
Arguments PyFloat.mul : simpl never.
Arguments PyFloat.literal : simpl never.
Arguments PyFloat.round_int : simpl never.

Section Retry.

Lemma py_range_retries : py_range 1 (SEND_RETRIES + 1) = [1; 2].
Proof. reflexivity. Qed.

Lemma int_add_retry_1 (x : PyFloat.float) :
  PyFloat.int_add (RETRY_SLEEP * 1) x
  = Ok (PyFloat.add (PyFloat.round_int (RETRY_SLEEP * 1)) x).
Proof. reflexivity. Qed.

Lemma int_add_retry_2 (x : PyFloat.float) :
  PyFloat.int_add (RETRY_SLEEP * 2) x
  = Ok (PyFloat.add (PyFloat.round_int (RETRY_SLEEP * 2)) x).
Proof. reflexivity. Qed.

Lemma emit_eq (e : event) (s : wstate) : emit e s = (Ok tt, add_events s [e]).
Proof. reflexivity. Qed.

Lemma add_events_app (s : wstate) (a b : list event) :
  add_events (add_events s a) b = add_events s (a ++ b).
Proof. unfold add_events. simpl. now rewrite app_assoc. Qed.

(** With [SEND_RETRIES] = 2 the loop has three outcomes. *)
Lemma send_raw_with_retry_eq send rnd raw s :
  send_raw_with_retry send rnd raw s =
  match send 1 with
  | Ok h => (Ok h, add_events s [EvSend 1 raw (Ok h)])
  | Raise e1 =>
      match send 2 with
      | Ok h =>
          (Ok h, add_events s [EvSend 1 raw (Raise e1);
                               retry_pause rnd 1;
                               EvSend 2 raw (Ok h)])
      | Raise e2 =>
          (Raise e2, add_events s [EvSend 1 raw (Raise e1);
                                   retry_pause rnd 1;
                                   EvSend 2 raw (Raise e2);
                                   retry_pause rnd 2])
      end
  end.
Proof.
  unfold send_raw_with_retry. rewrite py_range_retries.
  unfold send_raw_loop, bind, sleep, lift, ret, raise.
  destruct (send 1) as [h|e1].
  - now rewrite emit_eq.
  - rewrite emit_eq, int_add_retry_1, emit_eq, add_events_app.
    destruct (send 2) as [h|e2].
    + now rewrite emit_eq, add_events_app.
    + now rewrite emit_eq, int_add_retry_2, emit_eq, !add_events_app.
Qed.

End Retry.

Ltac split_results :=
  repeat match goal with
         | |- context [match ?x with Ok _ => _ | Raise _ => _ end] =>
             destruct x eqn:?
         | |- context [if ?b then _ else _] => destruct b eqn:?
         end.

Ltac close_state :=
  match goal with
  | |- (_, mk_wstate _ _ _ _ _ (?t ++ ?l)) = (_, mk_wstate _ _ _ _ _ (?t ++ ?e)) =>
      unify e l
  | |- (_, mk_wstate _ _ _ _ _ ?t) = (_, mk_wstate _ _ _ _ _ (?t ++ ?e)) =>
      unify e (@nil event); rewrite app_nil_r
  end.

Section Steps.

Lemma approve_step_cases sc pk addr token_cs market_cs s :
  exists evs skipped,
    approve_step sc pk addr token_cs market_cs s
    = (Ok tt, after_approve s (some_confirmed evs) skipped evs) /\
    approve_events_ok sc (nonce s) evs.
Proof.
  destruct s as [n sa sb sk it tr].
  unfold approve_step, allowance_enough, wait_for_transaction_receipt.
  unfold try_except, bind, lift, ret, get, sleep. simpl.
  destruct (call_allowance (token_view sc) addr market_cs) as [val|e0];
    [destruct (ALLOWANCE_THRESHOLD <=? val)|].
  1: { exists [], true. split; [|left; now split].
       unfold after_approve. simpl.
       now rewrite app_nil_r, !Z.add_0_r. }
  all: destruct (approve_gas_price sc) as [gp|e1];
       [destruct (approve_build sc) as [[]|e2];
        [destruct (approve_sign sc) as [[]|e3]|]|].
  all: try rewrite send_raw_with_retry_eq.
  all: split_results.
  all: rewrite ?emit_eq, ?add_events_app.
  all: eexists; exists false.
  all: (split;
        [ unfold incr_nonce, incr_sent_approve, modify, add_events,
            after_approve; simpl; rewrite <- ?app_assoc; simpl;
          close_state; unfold some_confirmed; simpl;
          rewrite ?Heqb; simpl; rewrite ?Z.add_0_r; reflexivity
        | unfold approve_events_ok; simpl;
          first [ left; split; reflexivity
                | right; eexists; repeat split; try congruence;
                  repeat match goal with
                    | H : approve_send _ _ = _ |- _ => rewrite H; clear H
                    end; reflexivity ] ]).
Qed.

Lemma buy_step_cases sc pk addr market_cs amount index min_tokens s :
  exists evs,
    buy_step sc pk addr market_cs amount index min_tokens s
    = (Ok tt, after_buy s (negb (is_nil (sent_txs evs))) evs) /\
    receipts evs = [] /\
    (sent_txs evs = [] \/
     exists gp,
       sent_txs evs = [mk_tx market_cs addr (buy amount index amount) 0
                         (nonce s) GAS_LIMIT_BUY gp CHAIN_ID]).
Proof.
  destruct s as [n sa sb sk it tr].
  unfold buy_step. unfold try_except, bind, lift, ret, get, sleep. simpl.
  destruct (buy_gas_price sc) as [gp|e1];
    [destruct (buy_build sc) as [[]|e2];
     [destruct (buy_sign sc) as [[]|e3]|]|].
  all: try rewrite send_raw_with_retry_eq.
  all: split_results.
  all: rewrite ?emit_eq, ?add_events_app.
  all: eexists.
  all: (split;
        [ unfold incr_nonce, incr_sent_buy, modify, add_events, after_buy;
          simpl; rewrite <- ?app_assoc; simpl;
          close_state; simpl; rewrite ?Z.add_0_r; reflexivity
        | split; [reflexivity|]; simpl;
          first [ left; reflexivity | right; eexists; reflexivity ] ]).
Qed.
End Steps.

Section RunRel.

Lemma StronglySorted_app {A} (R : A -> A -> Prop) (l1 l2 : list A) :
  StronglySorted R l1 -> StronglySorted R l2 ->
  (forall x y, In x l1 -> In y l2 -> R x y) ->
  StronglySorted R (l1 ++ l2).
Proof.
  induction 1 as [|a l Hl IH Ha]; intros H2 Hx; simpl; [exact H2|].
  constructor.
  - apply IH; [exact H2|]. intros x y Hin. apply Hx. now right.
  - apply Forall_app. split; [exact Ha|].
    apply Forall_forall. intros y Hy. apply Hx; [now left|exact Hy].
Qed.

Lemma StronglySorted_lt_NoDup (l : list Z) :
  StronglySorted Z.lt l -> NoDup l.
Proof.
  induction 1 as [|a l Hl IH Ha]; constructor; [|exact IH].
  intros Hin. rewrite Forall_forall in Ha. specialize (Ha a Hin). lia.
Qed.

Lemma sent_txs_app (a b : list event) :
  sent_txs (a ++ b) = sent_txs a ++ sent_txs b.
Proof. unfold sent_txs. apply flat_map_app. Qed.

Lemma sent_nonces_app (a b : list event) :
  sent_nonces (a ++ b) = sent_nonces a ++ sent_nonces b.
Proof. unfold sent_nonces. now rewrite sent_txs_app, map_app. Qed.

Lemma receipts_app (a b : list event) :
  receipts (a ++ b) = receipts a ++ receipts b.
Proof. unfold receipts. apply flat_map_app. Qed.

Lemma all_confirmed_app (a b : list event) :
  all_confirmed (a ++ b) <-> all_confirmed a /\ all_confirmed b.
Proof. unfold all_confirmed. rewrite receipts_app. apply Forall_app. Qed.

Variables amount index : Z.

Lemma run_rel_refl (s s' : wstate) :
  trace s' = trace s -> nonce s' = nonce s -> run_rel amount index s [] s'.
Proof.
  intros Ht Hn. constructor; simpl.
  - now rewrite app_nil_r.
  - lia.
  - split; constructor.
  - intros _. split; constructor.
  - constructor.
Qed.

Lemma run_rel_trans (s s1 s2 : wstate) (e1 e2 : list event) :
  run_rel amount index s e1 s1 -> run_rel amount index s1 e2 s2 ->
  run_rel amount index s (e1 ++ e2) s2.
Proof.
  intros [T1 N1 [L1 B1] S1 C1] [T2 N2 [L2 B2] S2 C2].
  rewrite Forall_forall in B1, B2.
  constructor.
  - now rewrite T2, T1, app_assoc.
  - lia.
  - rewrite sent_nonces_app. split.
    + apply StronglySorted_app; try assumption.
      intros x y Hx Hy. specialize (B1 x Hx). specialize (B2 y Hy). lia.
    + apply Forall_app. split; apply Forall_forall; intros x Hx.
      * specialize (B1 x Hx). lia.
      * specialize (B2 x Hx). lia.
  - intros H. apply all_confirmed_app in H. destruct H as [H1 H2].
    destruct (S1 H1) as [SS1 F1]. destruct (S2 H2) as [SS2 F2].
    rewrite Forall_forall in F1, F2.
    rewrite sent_nonces_app. split.
    + apply StronglySorted_app; try assumption.
      intros x y Hx Hy. specialize (F1 x Hx). specialize (F2 y Hy). lia.
    + apply Forall_app. split; apply Forall_forall; intros x Hx.
      * specialize (F1 x Hx). lia.
      * specialize (F2 x Hx). lia.
  - rewrite sent_txs_app. apply Forall_app. now split.
Qed.

End RunRel.

Section Runs.

Variable to_checksum_address : string -> result string.
Variable address_of_key : string -> result string.
Variables amount index min_tokens : Z.

Lemma sorted_singleton {R : Z -> Z -> Prop} (x : Z) : StronglySorted R [x].
Proof. constructor; constructor. Qed.

Lemma Forall_singleton {P : Z -> Prop} (x : Z) : P x -> Forall P [x].
Proof. intros H. constructor; [exact H|constructor]. Qed.

Lemma approve_step_respects sc pk addr token_cs market_cs :
  respects amount index (approve_step sc pk addr token_cs market_cs).
Proof.
  intros s.
  destruct (approve_step_cases sc pk addr token_cs market_cs s)
    as [evs [skipped [E Hev]]].
  exists evs. rewrite E. simpl.
  unfold some_confirmed.
  destruct Hev as [[Hs Hr]|[t [Hs [Hr [Hn [Hb _]]]]]].
  - constructor; simpl; unfold sent_nonces; rewrite ?Hs, ?Hr; simpl.
    + reflexivity.
    + lia.
    + split; constructor.
    + intros _. split; constructor.
    + constructor.
  - assert (B : 0 <= bump (receipt_confirmed (approve_receipt sc) || false))
      by (unfold bump; destruct (_ || _); lia).
    constructor; simpl; unfold sent_nonces, all_confirmed;
      rewrite ?Hs, ?Hr; simpl.
    + reflexivity.
    + lia.
    + split; [apply sorted_singleton|apply Forall_singleton; lia].
    + intros H. inversion_clear H as [|? ? Hc _]. rewrite Hc. simpl.
      split; [apply sorted_singleton|apply Forall_singleton; lia].
    + constructor; [|constructor]. unfold approve_or_buy.
      unfold is_buy in Hb. now destruct (tx_data t).
Qed.

Lemma buy_step_respects sc pk addr market_cs :
  respects amount index
    (buy_step sc pk addr market_cs amount index min_tokens).
Proof.
  intros s.
  destruct (buy_step_cases sc pk addr market_cs amount index min_tokens s)
    as [evs [E [Hr [Hs|[gp Hs]]]]].
  all: exists evs; rewrite E; simpl.
  all: constructor; simpl; unfold sent_nonces, all_confirmed;
    rewrite ?Hs, ?Hr; simpl; try reflexivity; try lia.
  - split; constructor.
  - intros _; split; constructor.
  - constructor.
  - split; [apply sorted_singleton|apply Forall_singleton; lia].
  - intros _. split; [apply sorted_singleton|apply Forall_singleton; lia].
  - constructor; [|constructor]. unfold approve_or_buy. simpl. auto.
Qed.

Lemma bind_respects {A B} (m : M A) (k : A -> M B) :
  respects amount index m -> (forall a, respects amount index (k a)) ->
  respects amount index (bind m k).
Proof.
  intros Hm Hk s. unfold bind. destruct (Hm s) as [e1 R1].
  destruct (m s) as [[a|e] s1]; simpl in R1.
  - destruct (Hk a s1) as [e2 R2]. exists (e1 ++ e2).
    eapply run_rel_trans; eassumption.
  - exists e1. exact R1.
Qed.

Lemma lift_respects {A} (r : result A) : respects amount index (lift r).
Proof. intros s. exists []. now apply run_rel_refl. Qed.

Lemma ret_respects {A} (a : A) : respects amount index (ret a).
Proof. intros s. exists []. now apply run_rel_refl. Qed.

Lemma next_iter_respects : respects amount index next_iter.
Proof. intros s. exists []. now apply run_rel_refl. Qed.

Lemma for_each_respects {A} (l : list A) (body : A -> M unit) :
  (forall x, respects amount index (body x)) ->
  respects amount index (for_each l body).
Proof.
  intros Hb. induction l as [|x r IH]; simpl.
  - apply ret_respects.
  - apply bind_respects; [apply Hb|]. intros _. exact IH.
Qed.

Lemma target_body_respects w pk addr token_cs market_addr :
  respects amount index
    (target_body to_checksum_address w pk addr token_cs
       amount index min_tokens market_addr).
Proof.
  unfold target_body.
  apply bind_respects; [apply next_iter_respects|]. intros k.
  repeat (apply bind_respects; [apply lift_respects|]; intros ?).
  destruct (_ <? _); [apply ret_respects|].
  apply bind_respects; [apply approve_step_respects|]. intros _.
  apply buy_step_respects.
Qed.

Lemma wallet_loop_respects w pk addr token_cs spenders_by_oracle :
  respects amount index
    (wallet_loop to_checksum_address w pk addr token_cs
       amount index min_tokens spenders_by_oracle).
Proof.
  unfold wallet_loop. apply for_each_respects. intros item.
  apply for_each_respects. intros m. apply target_body_respects.
Qed.

(** The trace of a whole run of the worker. *)
Lemma wallet_worker_trace w pk spenders_by_oracle token_addr proxy_url :
  let t := trace (snd (wallet_worker to_checksum_address address_of_key
                         w pk spenders_by_oracle token_addr
                         amount index min_tokens proxy_url init_wstate)) in
  nondecreasing (sent_nonces t) /\
  (all_confirmed t -> StronglySorted Z.lt (sent_nonces t)) /\
  Forall (approve_or_buy amount index amount) (sent_txs t).
Proof.
  unfold wallet_worker, bind, lift, ret, raise, set_nonce, modify, get.
  destruct (connected w proxy_url); simpl;
    [|repeat split; intros; constructor].
  destruct (address_of_key pk) as [addr|]; simpl;
    [|repeat split; intros; constructor].
  destruct (to_checksum_address token_addr) as [token_cs|]; simpl;
    [|repeat split; intros; constructor].
  destruct (pending_nonce w) as [n|]; simpl;
    [|repeat split; intros; constructor].
  match goal with
  | |- context [wallet_loop _ _ _ _ _ _ _ _ _ ?s0] =>
      destruct (wallet_loop_respects w pk addr token_cs spenders_by_oracle s0)
        as [evs [T N [L _] S C]];
      destruct (wallet_loop to_checksum_address w pk addr token_cs
                  amount index min_tokens spenders_by_oracle s0)
        as [[[]|e] s1]
  end; simpl in *; rewrite T.
  all: split; [exact L|split; [|exact C]].
  all: intros H; now apply S.
Qed.

End Runs.

(** ** Runs in the concrete world *)

(** Receipt timeout: no approval counted, the buy still sent, and both
    transactions carry nonce 5. *)
Example run_receipt_timeout :
  fst (ex_run (ex_world 1000000 (Raise TimeExhausted) 100 120) ["0xM"] 100000 0 0)
  = Ok ("0xAcc", 0, 1, 0).
Proof. vm_compute. reflexivity. Qed.

(** Balance below the investment: nothing is sent. *)
Example run_insufficient_balance :
  ex_run (ex_world 50000 (Ok 1) 100 100) ["0xM"; "0xN"] 100000 0 0
  = (Ok ("0xAcc", 0, 0, 0), mk_wstate 5 0 0 0 2 []).
Proof. vm_compute. reflexivity. Qed.

(** Two targets, every receipt confirmed: nonces 5, 6, 7, 8. *)
Example run_two_targets :
  sent_nonces (trace (snd (ex_run (ex_world 1000000 (Ok 1) 100 100)
                             ["0xM"; "0xN"] 100000 0 0)))
  = [5; 6; 7; 8].
Proof. vm_compute. reflexivity. Qed.

(** One target, approve and buy both succeed. *)
Example run_scenario_A :
  fst (ex_run (ex_world 1000000 (Ok 1) 100 100) ["0xM"] 100000 0 0)
  = Ok ("0xAcc", 1, 1, 0).
Proof. vm_compute. reflexivity. Qed.

(** ** How many iterations a worker begins *)

Section Iterations.

Variable to_checksum_address : string -> result string.
Variable address_of_key : string -> result string.

Lemma bind_begins {A B} (n1 n2 : nat) (m : M A) (k : A -> M B) :
  begins_at_most n1 m -> (forall a, begins_at_most n2 (k a)) ->
  begins_at_most (n1 + n2) (bind m k).
Proof.
  intros Hm Hk s. unfold bind. specialize (Hm s).
  destruct (m s) as [[a|e] s1]; simpl in *.
  - specialize (Hk a s1). lia.
  - lia.
Qed.

Lemma lift_begins {A} (r : result A) : begins_at_most 0 (lift r).
Proof. intros s. simpl. lia. Qed.

Lemma ret_begins {A} (a : A) : begins_at_most 0 (ret a).
Proof. intros s. simpl. lia. Qed.

Lemma approve_step_begins sc pk addr token_cs market_cs :
  begins_at_most 0 (approve_step sc pk addr token_cs market_cs).
Proof.
  intros s.
  destruct (approve_step_cases sc pk addr token_cs market_cs s)
    as [evs [skipped [E _]]].
  rewrite E. simpl. lia.
Qed.

Lemma buy_step_begins sc pk addr market_cs amount index min_tokens :
  begins_at_most 0 (buy_step sc pk addr market_cs amount index min_tokens).
Proof.
  intros s.
  destruct (buy_step_cases sc pk addr market_cs amount index min_tokens s)
    as [evs [E _]].
  rewrite E. simpl. lia.
Qed.

Lemma target_body_begins w pk addr token_cs amount index min_tokens market_addr :
  begins_at_most 1
    (target_body to_checksum_address w pk addr token_cs
       amount index min_tokens market_addr).
Proof.
  unfold target_body.
  apply (bind_begins (n1 := 1) (n2 := 0)); [intros s; simpl; lia|]. intros k.
  repeat (apply (bind_begins (n1 := 0) (n2 := 0)); [apply lift_begins|];
          intros ?).
  destruct (_ <? _); [apply ret_begins|].
  apply (bind_begins (n1 := 0) (n2 := 0)); [apply approve_step_begins|].
  intros _. apply buy_step_begins.
Qed.

Lemma for_each_begins {A} (f : A -> nat) (l : list A) (body : A -> M unit) :
  (forall x, begins_at_most (f x) (body x)) ->
  begins_at_most (list_sum (map f l)) (for_each l body).
Proof.
  intros Hb. induction l as [|x r IH]; simpl.
  - apply ret_begins.
  - apply bind_begins; [apply Hb|]. intros _. exact IH.
Qed.

Lemma list_sum_ones {A} (l : list A) :
  list_sum (map (fun _ => 1%nat) l) = List.length l.
Proof. induction l; simpl; congruence. Qed.

Lemma wallet_loop_begins w pk addr token_cs amount index min_tokens
  (spenders_by_oracle : list (Z * list string)) :
  begins_at_most
    (list_sum (map (fun item => List.length (snd item)) spenders_by_oracle))
    (wallet_loop to_checksum_address w pk addr token_cs
       amount index min_tokens spenders_by_oracle).
Proof.
  unfold wallet_loop. apply for_each_begins. intros item.
  rewrite <- list_sum_ones. apply for_each_begins. intros m.
  apply target_body_begins.
Qed.

(** A worker given the map [{0: uniq}] begins at most one iteration per
    element of [uniq]. *)
Lemma wallet_worker_begins w pk uniq token_addr amount index min_tokens proxy_url :
  (iter (snd (wallet_worker to_checksum_address address_of_key w pk
                [(0%Z, uniq)] token_addr amount index min_tokens proxy_url
                init_wstate))
   <= List.length uniq)%nat.
Proof.
  unfold wallet_worker, bind, lift, ret, raise, set_nonce, modify, get.
  destruct (connected w proxy_url); simpl; [|lia].
  destruct (address_of_key pk) as [addr|]; simpl; [|lia].
  destruct (to_checksum_address token_addr) as [token_cs|]; simpl; [|lia].
  destruct (pending_nonce w) as [n|]; simpl; [|lia].
  match goal with
  | |- context [wallet_loop _ _ _ _ _ _ _ _ ?m ?s0] =>
      pose proof (wallet_loop_begins w pk addr token_cs amount index
                    min_tokens m s0) as H;
      destruct (wallet_loop to_checksum_address w pk addr token_cs
                  amount index min_tokens m s0) as [[[]|e] s1]
  end; simpl in *; lia.
Qed.

End Iterations.

(** C1.  The claim is that the third argument of every buy call is the
    [buy_min_tokens] parameter.  The code passes [buy_amount_smallest]
    there: in every run, whatever [buy_min_tokens] is, each buy the node
    accepted carries the investment amount as its third argument; with an
    investment of 100000 and the floor [BUY_MIN_OUTCOME_TOKENS] = 0 the
    buy sent has 100000, not 0, as [minOutcomeTokensToBuy]. *)
Theorem buy_min_tokens_is_investment :
  (forall to_checksum_address address_of_key w pk spenders_by_oracle token_addr
          buy_amount_smallest buy_outcome_index buy_min_tokens proxy_url,
      Forall (approve_or_buy buy_amount_smallest buy_outcome_index
                buy_amount_smallest)
        (sent_txs (trace (snd (wallet_worker to_checksum_address address_of_key
                                 w pk spenders_by_oracle token_addr
                                 buy_amount_smallest buy_outcome_index
                                 buy_min_tokens proxy_url init_wstate))))) /\
  map min_tokens_of
    (sent_txs (trace (snd (ex_run (ex_world 1000000 (Ok 1) 100 100) ["0xM"]
                             100000 0 BUY_MIN_OUTCOME_TOKENS))))
  = [None; Some 100000].
Proof.
  split.
  - intros. apply wallet_worker_trace.
  - vm_compute. reflexivity.
Qed.

(** C2, as stated, fails.  The receipt of the approve times out, so the
    nonce is not advanced, and the buy is sent with the nonce of the
    approve; the node accepts it as a replacement, its gas price being
    20% above the approve's. *)
Lemma nonce_reused_after_receipt_timeout :
  sent_nonces (trace (snd (ex_run (ex_world 1000000 (Raise TimeExhausted) 100 120)
                             ["0xM"] 100000 0 0))) = [5; 5] /\
  ~ strictly_increasing
      (sent_nonces (trace (snd (ex_run (ex_world 1000000 (Raise TimeExhausted) 100 120)
                                  ["0xM"] 100000 0 0)))).
Proof.
  assert (E : sent_nonces (trace (snd (ex_run (ex_world 1000000 (Raise TimeExhausted) 100 120)
                             ["0xM"] 100000 0 0))) = [5; 5])
    by (vm_compute; reflexivity).
  split; [exact E|]. rewrite E. intros [_ H].
  inversion_clear H as [|? ? Hin _]. apply Hin. now left.
Qed.

(** C4.  [allowance_enough] never raises and leaves the local state
    alone; it returns [True] exactly when the allowance read is at least
    half of the largest 256-bit number (rounded down, 2^255 - 1), and
    [False] when the read fails. *)
Theorem allowance_enough_spec (token : token_contract) (owner spender : string)
  (s : wstate) :
  allowance_enough token owner spender s =
    (Ok match call_allowance token owner spender with
        | Ok val => (2 ^ 256 - 1) / 2 <=? val
        | Raise _ => false
        end, s) /\
  ALLOWANCE_THRESHOLD = 2 ^ 255 - 1.
Proof.
  split; [|reflexivity].
  unfold allowance_enough, try_except, bind, lift, ret.
  now destruct (call_allowance token owner spender).
Qed.

Section RetryCount.

Lemma send_attempts_app (a b : list event) :
  send_attempts (a ++ b) = send_attempts a ++ send_attempts b.
Proof. unfold send_attempts. apply flat_map_app. Qed.

(** The loop calls the node at most once per element of [attempts]. *)
Lemma send_raw_loop_attempts send rnd raw attempts last_err s :
  exists evs,
    snd (send_raw_loop send rnd raw attempts last_err s) = add_events s evs /\
    (List.length (send_attempts evs) <= List.length attempts)%nat.
Proof.
  revert last_err s. induction attempts as [|k rest IH]; intros last_err s.
  - exists []. split; [|simpl; lia].
    unfold add_events. rewrite app_nil_r.
    simpl. destruct last_err, s; reflexivity.
  - cbn [send_raw_loop]. destruct (send k) as [h|e].
    + exists [EvSend k raw (Ok h)]. split; [reflexivity|simpl; lia].
    + unfold bind, lift, sleep. rewrite emit_eq.
      destruct (PyFloat.int_add (RETRY_SLEEP * k) (rnd k)) as [d|e'].
      * cbv beta iota. rewrite emit_eq, add_events_app.
        destruct (IH (Some e) (add_events s ([EvSend k raw (Raise e)] ++ [EvSleep d])))
          as [evs [E L]].
        exists (([EvSend k raw (Raise e)] ++ [EvSleep d]) ++ evs).
        rewrite E, add_events_app. split; [reflexivity|].
        rewrite send_attempts_app. simpl. lia.
      * exists [EvSend k raw (Raise e)]. split; [reflexivity|simpl; lia].
Qed.

End RetryCount.

(** C5.  [send_raw_with_retry] calls the node at most [SEND_RETRIES] = 2
    times; after the [k]-th failed attempt it sleeps
    [RETRY_SLEEP * k + random.random()] seconds; when both attempts fail
    it raises the error of the second; and neither the approval step nor
    the buy step of the worker lets an exception escape, so the error
    ends that step only. *)
Theorem send_raw_with_retry_spec (send : Z -> result txhash)
  (rnd : Z -> PyFloat.float) (raw : signed) (s : wstate) :
  (exists evs,
      snd (send_raw_with_retry send rnd raw s) = add_events s evs /\
      Z.of_nat (List.length (send_attempts evs)) <= SEND_RETRIES) /\
  send_raw_with_retry send rnd raw s =
    match send 1 with
    | Ok h => (Ok h, add_events s [EvSend 1 raw (Ok h)])
    | Raise e1 =>
        match send 2 with
        | Ok h =>
            (Ok h, add_events s [EvSend 1 raw (Raise e1);
                                 retry_pause rnd 1;
                                 EvSend 2 raw (Ok h)])
        | Raise e2 =>
            (Raise e2, add_events s [EvSend 1 raw (Raise e1);
                                     retry_pause rnd 1;
                                     EvSend 2 raw (Raise e2);
                                     retry_pause rnd 2])
        end
    end /\
  (forall sc pk addr token_cs market_cs amount index min_tokens s0,
      fst (approve_step sc pk addr token_cs market_cs s0) = Ok tt /\
      fst (buy_step sc pk addr market_cs amount index min_tokens s0) = Ok tt).
Proof.
  split; [|split].
  - destruct (send_raw_loop_attempts send rnd raw
                (py_range 1 (SEND_RETRIES + 1)) None s) as [evs [E L]].
    exists evs. split; [exact E|]. rewrite py_range_retries in L.
    simpl in L. unfold SEND_RETRIES. lia.
  - apply send_raw_with_retry_eq.
  - intros. split.
    + destruct (approve_step_cases sc pk addr token_cs market_cs s0)
        as [evs [k [E _]]]. now rewrite E.
    + destruct (buy_step_cases sc pk addr market_cs amount index min_tokens s0)
        as [evs [E _]]. now rewrite E.
Qed.

Section Gate.

Lemma py_truediv_check_uint256 (a : Z) :
  0 <= a <= MAX_UINT256 -> py_truediv_check a (10 ^ TOKEN_DECIMALS) = Ok tt.
Proof.
  intros H. unfold py_truediv_check.
  change (10 ^ TOKEN_DECIMALS) with 1000000.
  change (1000000 =? 0) with false. cbv iota.
  assert (K : MAX_UINT256 < (2 ^ 1024 - 2 ^ 970) * Z.abs 1000000)
    by (vm_compute; reflexivity).
  destruct (Z.leb_spec ((2 ^ 1024 - 2 ^ 970) * Z.abs 1000000) (Z.abs a));
    [|reflexivity].
  rewrite Z.abs_eq in * by lia. lia.
Qed.

Lemma uint256_range (w : Z) : 0 <= uint256 w <= MAX_UINT256.
Proof.
  unfold uint256, MAX_UINT256.
  assert (0 < 2 ^ 256) by (vm_compute; reflexivity).
  pose proof (Z.mod_pos_bound w (2 ^ 256)). lia.
Qed.

Lemma call_balanceOf_range (t : token_contract) (addr : string) (b : Z) :
  call_balanceOf t addr = Ok b -> 0 <= b <= MAX_UINT256.
Proof.
  unfold call_balanceOf. destruct (balanceOf t addr); [|discriminate].
  intros [= <-]. apply uint256_range.
Qed.

Variable to_checksum_address : string -> result string.

(** The loop body up to the balance gate. *)
Lemma target_body_gate w pk addr token_cs amount index min_tokens
  market_addr market_cs b s :
  to_checksum_address market_addr = Ok market_cs ->
  call_balanceOf (token_view (script w (iter s))) addr = Ok b ->
  0 <= amount <= MAX_UINT256 ->
  target_body to_checksum_address w pk addr token_cs amount index min_tokens
    market_addr s =
  if b <? amount then (Ok tt, after_skip s)
  else
    (approve_step (script w (iter s)) pk addr token_cs market_cs ;;
     buy_step (script w (iter s)) pk addr market_cs amount index min_tokens)
      (after_skip s).
Proof.
  intros Hc Hb Ha. unfold target_body, next_iter.
  unfold bind at 1. cbv beta iota. fold (after_skip s).
  unfold bind at 1, lift at 1. rewrite Hc. cbv beta iota.
  unfold bind at 1, lift at 1. rewrite Hb. cbv beta iota.
  unfold bind at 1, lift at 1.
  rewrite (py_truediv_check_uint256 (call_balanceOf_range _ _ Hb)).
  cbv beta iota.
  unfold bind at 1, lift at 1. rewrite (py_truediv_check_uint256 Ha).
  cbv beta iota. now destruct (b <? amount).
Qed.

End Gate.

(** C6.  When the balance read for a target is strictly below the
    investment amount (a uint256 amount), the loop body ends normally
    without any event: no approve and no buy is sent or even attempted,
    the nonce and the three counters keep their values, and the loop goes
    on with the next target. *)
Theorem insufficient_balance_skips_target
  (to_checksum_address : string -> result string) (w : world)
  (pk addr token_cs : string) (amount index min_tokens : Z)
  (market_addr market_cs : string) (b : Z) (rest : list string) (s : wstate) :
  to_checksum_address market_addr = Ok market_cs ->
  call_balanceOf (token_view (script w (iter s))) addr = Ok b ->
  b < amount ->
  amount <= MAX_UINT256 ->
  let body := target_body to_checksum_address w pk addr token_cs
                amount index min_tokens in
  let s' := snd (body market_addr s) in
  fst (body market_addr s) = Ok tt /\
  trace s' = trace s /\
  nonce s' = nonce s /\
  sent_approve s' = sent_approve s /\
  sent_buy s' = sent_buy s /\
  skipped_approve s' = skipped_approve s /\
  for_each (market_addr :: rest) body s = for_each rest body s'.
Proof.
  intros Hc Hb Hlt Hmax body s'.
  assert (E : body market_addr s = (Ok tt, after_skip s)).
  { unfold body. rewrite (target_body_gate _ _ _ _ _ _ _ _ _ Hc Hb).
    - apply Z.ltb_lt in Hlt. now rewrite Hlt.
    - pose proof (call_balanceOf_range _ _ Hb). lia. }
  unfold s'. cbn [for_each]. unfold bind. rewrite E. now repeat split.
Qed.

(** A balance of 50000 against an investment of 100000. *)
Lemma insufficient_balance_skips_target_witness :
  let body := target_body ex_checksum (ex_world 50000 (Ok 1) 100 100)
                "0x01" "0xAcc" TOKEN_ADDRESS 100000 0 0 in
  let s' := snd (body "0xM" init_wstate) in
  fst (body "0xM" init_wstate) = Ok tt /\
  trace s' = trace init_wstate /\
  nonce s' = nonce init_wstate /\
  sent_approve s' = sent_approve init_wstate /\
  sent_buy s' = sent_buy init_wstate /\
  skipped_approve s' = skipped_approve init_wstate /\
  for_each ("0xM" :: ["0xN"]) body init_wstate = for_each ["0xN"] body s'.
Proof.
  apply (@insufficient_balance_skips_target ex_checksum
           (ex_world 50000 (Ok 1) 100 100) "0x01" "0xAcc" TOKEN_ADDRESS
           100000 0 0 "0xM" "0xM" 50000 ["0xN"] init_wstate).
  - reflexivity.
  - reflexivity.
  - reflexivity.
  - discriminate.
Defined.

(** The approval step, with its outcome read off the node's answers. *)
Lemma approve_step_exact sc pk addr token_cs market_cs s :
  exists evs skipped,
    approve_step sc pk addr token_cs market_cs s
    = (Ok tt, after_approve s (some_confirmed evs) skipped evs) /\
    approve_events_ok sc (nonce s) evs /\
    some_confirmed evs = approve_confirmed sc addr market_cs /\
    negb (is_nil (sent_txs evs)) = approve_accepted sc addr market_cs /\
    skipped = allowance_sufficient sc addr market_cs.
Proof.
  destruct s as [n sa sb sk it tr].
  unfold approve_confirmed, approve_accepted, allowance_sufficient,
    receipt_confirmed.
  unfold approve_step, allowance_enough, wait_for_transaction_receipt.
  unfold try_except, bind, lift, ret, get, sleep. simpl.
  destruct (call_allowance (token_view sc) addr market_cs) as [val|e0];
    [destruct (ALLOWANCE_THRESHOLD <=? val)|].
  1: { exists [], true. split; [|split; [left; now split|now repeat split]].
       unfold after_approve. simpl.
       now rewrite app_nil_r, !Z.add_0_r. }
  all: destruct (approve_gas_price sc) as [gp|e1];
       [destruct (approve_build sc) as [[]|e2];
        [destruct (approve_sign sc) as [[]|e3]|]|].
  all: try rewrite send_raw_with_retry_eq.
  all: split_results.
  all: rewrite ?emit_eq, ?add_events_app.
  all: eexists; exists false.
  all: (split;
        [ unfold incr_nonce, incr_sent_approve, modify, add_events,
            after_approve; simpl; rewrite <- ?app_assoc; simpl;
          close_state; unfold some_confirmed; simpl;
          rewrite ?Heqb; simpl; rewrite ?Z.add_0_r; reflexivity
        | split;
          [ unfold approve_events_ok; simpl;
            first [ left; split; reflexivity
                  | right; eexists; repeat split; try congruence;
                    repeat match goal with
                      | H : approve_send _ _ = _ |- _ => rewrite H; clear H
                      end; reflexivity ]
          | unfold some_confirmed; simpl;
            repeat match goal with
              | H : approve_send _ _ = _ |- _ => rewrite H; clear H
              | H : approve_receipt _ = _ |- _ => rewrite H; clear H
              end; simpl; rewrite ?Heqb; simpl;
            repeat split; reflexivity ] ]).
Qed.

(** C3.  The approval step never raises.  It advances the nonce and
    the approvals-sent counter by one exactly when a receipt with status
    1 was obtained, that is exactly when the node accepted the approve
    and the wait for its receipt gave status 1, and leaves both unchanged
    otherwise: in particular when the receipt wait fails or gives another
    status, and when both send attempts fail.  Whenever the balance
    suffices, the loop body is the buy step run in the state the approval
    step leaves. *)
Theorem approve_step_nonce_policy :
  (forall sc pk addr token_cs market_cs s,
      exists evs,
        let s' := snd (approve_step sc pk addr token_cs market_cs s) in
        fst (approve_step sc pk addr token_cs market_cs s) = Ok tt /\
        trace s' = trace s ++ evs /\
        nonce s' = nonce s + bump (some_confirmed evs) /\
        sent_approve s' = sent_approve s + bump (some_confirmed evs) /\
        sent_buy s' = sent_buy s /\
        (receipt_confirmed (approve_receipt sc) = false ->
         some_confirmed evs = false) /\
        (is_ok (approve_send sc 1) || is_ok (approve_send sc 2) = false ->
         some_confirmed evs = false) /\
        some_confirmed evs = approve_confirmed sc addr market_cs /\
        nonce s' = nonce s + bump (approve_confirmed sc addr market_cs) /\
        sent_approve s' =
          sent_approve s + bump (approve_confirmed sc addr market_cs) /\
        (approve_accepted sc addr market_cs = true ->
         approve_receipt sc = Ok 1 ->
         nonce s' = nonce s + 1 /\ sent_approve s' = sent_approve s + 1 /\
         exists t h, sent_txs evs = [t] /\ tx_nonce t = nonce s /\
                     In (EvReceipt h (Ok 1)) evs)) /\
  (forall to_checksum_address w pk addr token_cs amount index min_tokens
          market_addr market_cs b s,
      to_checksum_address market_addr = Ok market_cs ->
      call_balanceOf (token_view (script w (iter s))) addr = Ok b ->
      0 <= amount <= b ->
      target_body to_checksum_address w pk addr token_cs
        amount index min_tokens market_addr s
      = buy_step (script w (iter s)) pk addr market_cs amount index min_tokens
          (snd (approve_step (script w (iter s)) pk addr token_cs market_cs
                  (after_skip s)))).
Proof.
  split.
  - intros sc pk addr token_cs market_cs s.
    destruct (approve_step_exact sc pk addr token_cs market_cs s)
      as [evs [skipped [E [Hev [Hc [Hacc _]]]]]].
    exists evs. rewrite E. cbn [fst snd after_approve trace nonce sent_approve
                                 sent_buy].
    rewrite <- Hc.
    split; [reflexivity|]. split; [reflexivity|]. split; [reflexivity|].
    split; [reflexivity|]. split; [reflexivity|]. split; [|split].
    + unfold some_confirmed.
      destruct Hev as [[_ ->]|[t [_ [-> _]]]]; simpl; [reflexivity|].
      intros ->. reflexivity.
    + unfold some_confirmed.
      destruct Hev as [[_ ->]|[t [_ [_ [_ [_ Hs]]]]]]; [reflexivity|].
      congruence.
    + split; [reflexivity|]. split; [reflexivity|]. split; [reflexivity|].
      intros Ha Hr.
      assert (Hc' : some_confirmed evs = true).
      { rewrite Hc. unfold approve_confirmed. rewrite Ha, Hr. reflexivity. }
      rewrite Hc'. split; [reflexivity|]. split; [reflexivity|].
      rewrite Ha in Hacc.
      destruct Hev as [[Hs _]|[t [Hs [Hrs [Hn _]]]]];
        [rewrite Hs in Hacc; discriminate|].
      assert (Hin : exists h, In (EvReceipt h (Ok 1)) evs).
      { rewrite Hr in Hrs. clear - Hrs. unfold receipts in Hrs.
        assert (I : In (Ok 1) (flat_map
                     (fun e => match e with EvReceipt _ r => [r] | _ => [] end)
                     evs)) by (rewrite Hrs; now left).
        apply in_flat_map in I. destruct I as [e [He Hx]].
        destruct e as [? ? ?|h r|?]; simpl in Hx; try contradiction.
        destruct Hx as [->|[]]. now exists h. }
      destruct Hin as [h Hin]. now exists t, h.
  - intros to_checksum_address w pk addr token_cs amount index min_tokens
      market_addr market_cs b s Hc Hb Ha.
    pose proof (call_balanceOf_range _ _ Hb) as Hr.
    rewrite (target_body_gate _ _ _ _ _ _ _ _ _ Hc Hb) by lia.
    destruct (Z.ltb_spec b amount); [lia|].
    unfold bind.
    destruct (approve_step_cases (script w (iter s)) pk addr token_cs market_cs
                (after_skip s)) as [evs [skipped [E _]]].
    now rewrite E.
Qed.

(** The node accepts the approve and confirms it: nonce and counter go
    from 5 and 0 to 6 and 1, and the buy step follows. *)
Lemma approve_step_nonce_policy_witness :
  (let s' := snd (approve_step (ex_script 1000000 (Ok 1) 100 100)
                    "0x01" "0xAcc" TOKEN_ADDRESS "0xM" (mk_wstate 5 0 0 0 1 [])) in
   nonce s' = 5 + 1 /\ sent_approve s' = 0 + 1) /\
  target_body ex_checksum (ex_world 1000000 (Ok 1) 100 100)
    "0x01" "0xAcc" TOKEN_ADDRESS 100000 0 0 "0xM" (mk_wstate 5 0 0 0 0 [])
  = buy_step (ex_script 1000000 (Ok 1) 100 100)
      "0x01" "0xAcc" "0xM" 100000 0 0
      (snd (approve_step (ex_script 1000000 (Ok 1) 100 100)
              "0x01" "0xAcc" TOKEN_ADDRESS "0xM"
              (after_skip (mk_wstate 5 0 0 0 0 [])))).
Proof.
  split.
  - destruct (proj1 approve_step_nonce_policy
                (ex_script 1000000 (Ok 1) 100 100)
                "0x01" "0xAcc" TOKEN_ADDRESS "0xM" (mk_wstate 5 0 0 0 1 []))
      as [evs [_ [_ [_ [_ [_ [_ [_ [_ [_ [_ H]]]]]]]]]]].
    destruct (H eq_refl eq_refl) as [Hn [Ha _]]. split; assumption.
  - apply (proj2 approve_step_nonce_policy ex_checksum
             (ex_world 1000000 (Ok 1) 100 100)
             "0x01" "0xAcc" TOKEN_ADDRESS 100000 0 0 "0xM" "0xM" 1000000
             (mk_wstate 5 0 0 0 0 [])).
    + reflexivity.
    + reflexivity.
    + split; discriminate.
Defined.

(** * Further properties *)

(** ** [str.strip] and the key file *)

Section Strip.

Lemma rstrip_idem (s : string) : PyStr.rstrip (PyStr.rstrip s) = PyStr.rstrip s.
Proof.
  induction s as [|c r IH]; [reflexivity|].
  simpl. destruct (PyStr.rstrip r) as [|c' r'] eqn:E.
  - destruct (PyStr.is_space c) eqn:Sp; [reflexivity|]. simpl. now rewrite Sp.
  - simpl in *. now rewrite IH.
Qed.

Lemma lstrip_idem (s : string) : PyStr.lstrip (PyStr.lstrip s) = PyStr.lstrip s.
Proof.
  induction s as [|c r IH]; [reflexivity|].
  simpl. destruct (PyStr.is_space c) eqn:Sp; [exact IH|]. simpl. now rewrite Sp.
Qed.

Lemma rstrip_lstrip (s : string) :
  PyStr.rstrip (PyStr.lstrip s) = PyStr.lstrip (PyStr.rstrip s).
Proof.
  induction s as [|c r IH]; [reflexivity|].
  cbn [PyStr.lstrip]. destruct (PyStr.is_space c) eqn:Sp.
  - rewrite IH. cbn [PyStr.rstrip].
    destruct (PyStr.rstrip r) as [|c' r'].
    + now rewrite Sp.
    + cbn [PyStr.lstrip]. now rewrite Sp.
  - cbn [PyStr.rstrip]. destruct (PyStr.rstrip r) as [|c' r'].
    + rewrite Sp. cbn [PyStr.lstrip]. now rewrite Sp.
    + cbn [PyStr.lstrip]. now rewrite Sp.
Qed.

Lemma strip_idem (s : string) : PyStr.strip (PyStr.strip s) = PyStr.strip s.
Proof.
  unfold PyStr.strip.
  now rewrite rstrip_lstrip, rstrip_idem, lstrip_idem.
Qed.

Lemma rstrip_strip (s : string) : PyStr.rstrip (PyStr.strip s) = PyStr.strip s.
Proof. unfold PyStr.strip. now rewrite rstrip_lstrip, rstrip_idem. Qed.

Lemma rstrip_cons_fixed (c : ascii) (s : string) :
  PyStr.rstrip s = s -> s <> EmptyString ->
  PyStr.rstrip (String c s) = String c s.
Proof.
  intros E N. cbn [PyStr.rstrip]. rewrite E. destruct s; [congruence|reflexivity].
Qed.

Lemma strip_with_0x_prefix (s : string) :
  PyStr.strip s = s -> s <> EmptyString ->
  PyStr.strip (with_0x_prefix s) = with_0x_prefix s.
Proof.
  intros E N. unfold with_0x_prefix.
  destruct (PyStr.startswith s "0x"); [exact E|].
  assert (R : PyStr.rstrip s = s) by (rewrite <- E; apply rstrip_strip).
  unfold PyStr.strip. change ("0x" ++ s)%string with (String "0" (String "x" s)).
  rewrite (rstrip_cons_fixed "0"%char).
  - reflexivity.
  - now apply rstrip_cons_fixed.
  - discriminate.
Qed.

Lemma truthy_nonempty (s : string) : PyStr.truthy s = true <-> s <> EmptyString.
Proof. destruct s; simpl; split; congruence. Qed.

Lemma with_0x_prefix_truthy (s : string) : PyStr.truthy (with_0x_prefix s) = true.
Proof.
  unfold with_0x_prefix. destruct (PyStr.startswith s "0x") eqn:E.
  - destruct s; [discriminate|reflexivity].
  - reflexivity.
Qed.

Lemma with_0x_prefix_idem (s : string) :
  with_0x_prefix (with_0x_prefix s) = with_0x_prefix s.
Proof.
  unfold with_0x_prefix at 1. now rewrite with_0x_prefix_startswith.
Qed.

End Strip.

(** X1.  Loading is idempotent: a key file whose lines are the keys that
    [load_private_keys] returned loads to the same keys. *)
Theorem load_private_keys_idempotent (lines keys : list string) :
  load_private_keys (Some lines) = Ok keys ->
  load_private_keys (Some keys) = Ok keys.
Proof.
  unfold load_private_keys. rewrite !load_private_keys_loop_spec.
  intros H. injection H as <-. f_equal.
  simpl. induction lines as [|l r IH]; [reflexivity|].
  simpl. destruct (PyStr.truthy (PyStr.strip l)) eqn:T; [|exact IH].
  simpl. rewrite strip_with_0x_prefix.
  - rewrite with_0x_prefix_truthy. simpl.
    now rewrite with_0x_prefix_idem, IH.
  - apply strip_idem.
  - now apply truthy_nonempty.
Qed.

Lemma load_private_keys_idempotent_witness :
  load_private_keys (Some ["0xabc"; "0xdef"]) = Ok ["0xabc"; "0xdef"].
Proof.
  apply (@load_private_keys_idempotent ["abc"; "  0xdef  "; "   "]).
  reflexivity.
Defined.

(** ** The proxy file *)

Section ProxyFile.

Lemma load_proxies_loop_spec (lines proxies : list string) :
  load_proxies_loop lines proxies =
  proxies ++ filter (fun u => PyStr.truthy u && negb (PyStr.startswith u "#"))
               (map PyStr.strip lines).
Proof.
  revert proxies. induction lines as [|l r IH]; intros proxies; simpl.
  - now rewrite app_nil_r.
  - destruct (PyStr.truthy (PyStr.strip l) &&
              negb (PyStr.startswith (PyStr.strip l) "#")).
    + rewrite IH, <- app_assoc. reflexivity.
    + apply IH.
Qed.

End ProxyFile.

(** X2.  [load_proxies] keeps, in order, the stripped lines that are
    neither empty nor comments (starting with "#"); every proxy returned
    is non-empty, is no comment and has no blank at either end; without a
    proxy file every worker is assigned no proxy. *)
Theorem load_proxies_spec (lines : list string) :
  load_proxies (Some lines) =
    filter (fun u => PyStr.truthy u && negb (PyStr.startswith u "#"))
      (map PyStr.strip lines) /\
  Forall (fun u => u <> EmptyString /\ PyStr.startswith u "#" = false /\
                   PyStr.strip u = u)
    (load_proxies (Some lines)) /\
  (forall workers, assigned_proxies (load_proxies None) workers
                   = map (fun _ => None) workers).
Proof.
  assert (E : load_proxies (Some lines) =
              filter (fun u => PyStr.truthy u && negb (PyStr.startswith u "#"))
                (map PyStr.strip lines)).
  { unfold load_proxies. now rewrite load_proxies_loop_spec. }
  split; [exact E|]. split.
  - rewrite E. apply Forall_forall. intros u Hu.
    apply filter_In in Hu. destruct Hu as [Hin Hu].
    apply andb_true_iff in Hu. destruct Hu as [T S].
    apply negb_true_iff in S. apply in_map_iff in Hin.
    destruct Hin as [l [<- _]].
    repeat split; [now apply truthy_nonempty|exact S|apply strip_idem].
  - intros workers. unfold assigned_proxies. simpl.
    generalize 1. induction workers as [|k r IH]; intros i; simpl;
      [reflexivity|]. now rewrite IH.
Qed.

(** ** [ensure_checksum_list] *)

Section ChecksumList.

Variable to_checksum_address : string -> result string.

Lemma dict_fromkeys_loop_spec (res keys : list string) :
  dict_fromkeys_loop res keys =
  keys ++ keep_first_occurrences
            (filter (fun x => negb (PyStr.mem x keys)) res).
Proof.
  revert keys. induction res as [|a r IH]; intros keys; simpl.
  - now rewrite app_nil_r.
  - destruct (PyStr.mem a keys) eqn:Hm; simpl; [apply IH|].
    rewrite IH, <- app_assoc. simpl. do 2 f_equal.
    rewrite remove_keep_first, remove_filter. f_equal.
    apply filter_ext. intros x. rewrite mem_snoc.
    now destruct (PyStr.mem x keys), (String.eqb x a).
Qed.

Lemma dict_fromkeys_spec (res : list string) :
  dict_fromkeys res = keep_first_occurrences res.
Proof.
  unfold dict_fromkeys. rewrite dict_fromkeys_loop_spec. simpl. f_equal.
  induction res as [|a r IH]; simpl; congruence.
Qed.

Lemma ensure_checksum_loop_spec (addresses res : list string) :
  ensure_checksum_loop to_checksum_address addresses res =
  res ++ checksums_of to_checksum_address addresses.
Proof.
  revert res. induction addresses as [|a r IH]; intros res; simpl.
  - now rewrite app_nil_r.
  - destruct (to_checksum_address a); [|apply IH].
    now rewrite IH, <- app_assoc.
Qed.

Lemma checksums_of_In (addresses : list string) (c : string) :
  In c (checksums_of to_checksum_address addresses) <->
  exists a, In a addresses /\ to_checksum_address a = Ok c.
Proof.
  induction addresses as [|a r IH]; simpl.
  - split; [tauto|]. intros [x [[] _]].
  - destruct (to_checksum_address a) as [c'|e] eqn:E; simpl; rewrite IH.
    + split.
      * intros [<-|[x [Hx Ex]]]; [exists a; auto|exists x; auto].
      * intros [x [[<-|Hx] Ex]]; [left; congruence|right; exists x; auto].
    + split.
      * intros [x [Hx Ex]]. exists x; auto.
      * intros [x [[<-|Hx] Ex]]; [congruence|exists x; auto].
Qed.

Lemma checksums_of_fixed (l : list string) :
  (forall c, In c l -> to_checksum_address c = Ok c) ->
  checksums_of to_checksum_address l = l.
Proof.
  induction l as [|a r IH]; intros H; simpl; [reflexivity|].
  rewrite (H a) by now left. f_equal. apply IH. intros c Hc. apply H. now right.
Qed.

End ChecksumList.

(** X3.  [ensure_checksum_list] converts the addresses that convert,
    drops the others, and keeps the first occurrence of each converted
    address: the result has no repetition, and contains exactly the
    checksum forms of the valid inputs. *)
Theorem ensure_checksum_list_spec (to_checksum_address : string -> result string)
  (addresses : list string) :
  ensure_checksum_list to_checksum_address addresses =
    keep_first_occurrences (checksums_of to_checksum_address addresses) /\
  NoDup (ensure_checksum_list to_checksum_address addresses) /\
  (forall c, In c (ensure_checksum_list to_checksum_address addresses) <->
             exists a, In a addresses /\ to_checksum_address a = Ok c).
Proof.
  assert (E : ensure_checksum_list to_checksum_address addresses =
              keep_first_occurrences (checksums_of to_checksum_address addresses)).
  { unfold ensure_checksum_list.
    now rewrite dict_fromkeys_spec, ensure_checksum_loop_spec. }
  split; [exact E|]. rewrite E. split; [apply keep_first_NoDup|].
  intros c. rewrite keep_first_In. apply checksums_of_In.
Qed.

(** X4.  When the checksum form of an address converts to itself,
    [ensure_checksum_list] applied to its own output changes nothing. *)
Theorem ensure_checksum_list_idempotent
  (to_checksum_address : string -> result string) (addresses : list string) :
  (forall a c, to_checksum_address a = Ok c -> to_checksum_address c = Ok c) ->
  ensure_checksum_list to_checksum_address
    (ensure_checksum_list to_checksum_address addresses)
  = ensure_checksum_list to_checksum_address addresses.
Proof.
  intros H. unfold ensure_checksum_list.
  rewrite !dict_fromkeys_spec, !ensure_checksum_loop_spec. simpl.
  rewrite checksums_of_fixed.
  - apply keep_first_id, keep_first_NoDup.
  - intros c Hc. apply keep_first_In, checksums_of_In in Hc.
    destruct Hc as [a [_ Ha]]. exact (H a c Ha).
Qed.

Lemma ensure_checksum_list_idempotent_witness :
  ensure_checksum_list ex_checksum
    (ensure_checksum_list ex_checksum ["0xA"; "0xB"; "0xA"])
  = ensure_checksum_list ex_checksum ["0xA"; "0xB"; "0xA"].
Proof.
  apply ensure_checksum_list_idempotent.
  intros a c H. unfold ex_checksum in *. congruence.
Defined.

(** ** [fetch_markets_for_oracle] *)

Section Fetch.

Lemma dict_get_set_same (d : market_dict) (k : Z) (v : string) :
  dict_get (dict_set d k v) k = Some v.
Proof.
  induction d as [|[k' v'] r IH]; simpl.
  - now rewrite Z.eqb_refl.
  - destruct (k' =? k) eqn:E; simpl; [now rewrite Z.eqb_refl|].
    now rewrite E.
Qed.

Lemma dict_get_set_other (d : market_dict) (k k' : Z) (v : string) :
  k' <> k -> dict_get (dict_set d k v) k' = dict_get d k'.
Proof.
  intros N. induction d as [|[k0 v0] r IH]; simpl.
  - destruct (Z.eqb_spec k k'); [congruence|reflexivity].
  - destruct (Z.eqb_spec k0 k) as [->|N0]; simpl.
    + destruct (Z.eqb_spec k k'); [congruence|reflexivity].
    + now rewrite IH.
Qed.

Lemma py_range_fetch : py_range 1 4 = [1; 2; 3].
Proof. reflexivity. Qed.

Lemma fetch_pause_1 :
  PyFloat.mul_int (PyFloat.literal 1 1) 1 = Ok (PyFloat.round_int 1).
Proof. vm_compute. reflexivity. Qed.

Lemma fetch_pause_2 :
  PyFloat.mul_int (PyFloat.literal 1 1) 2 = Ok (PyFloat.round_int 2).
Proof. vm_compute. reflexivity. Qed.

Lemma fetch_markets_for_oracle_eq get oracle_id d :
  fetch_markets_for_oracle get oracle_id d =
  match get 1 with
  | Ok a => (Ok tt, dict_set d oracle_id a, [FetchGet 1 (Ok a)])
  | Raise e1 =>
      match get 2 with
      | Ok a =>
          (Ok tt, dict_set d oracle_id a,
           [FetchGet 1 (Raise e1); FetchSleep (PyFloat.round_int 1);
            FetchGet 2 (Ok a)])
      | Raise e2 =>
          match get 3 with
          | Ok a =>
              (Ok tt, dict_set d oracle_id a,
               [FetchGet 1 (Raise e1); FetchSleep (PyFloat.round_int 1);
                FetchGet 2 (Raise e2); FetchSleep (PyFloat.round_int 2);
                FetchGet 3 (Ok a)])
          | Raise e3 =>
              (Ok tt, d,
               [FetchGet 1 (Raise e1); FetchSleep (PyFloat.round_int 1);
                FetchGet 2 (Raise e2); FetchSleep (PyFloat.round_int 2);
                FetchGet 3 (Raise e3); FetchPrint e3])
          end
      end
  end.
Proof.
  unfold fetch_markets_for_oracle. rewrite py_range_fetch.
  cbn [fetch_loop]. change (1 <? 3) with true. change (2 <? 3) with true.
  change (3 <? 3) with false. cbv iota.
  rewrite fetch_pause_1, fetch_pause_2.
  destruct (get 1), (get 2), (get 3); reflexivity.
Qed.

End Fetch.

(** X5.  [fetch_markets_for_oracle] never raises; it makes between one
    and three requests, numbered 1, 2, 3, and stops at the first that
    succeeds: one request when the first succeeds, two when the first
    fails and the second succeeds, three otherwise; it sleeps 1.0 and 2.0
    seconds between requests and not after the last; it binds the oracle
    id to the first address obtained and leaves [ALL_MARKET] as it was
    when all three fail; no other key changes. *)
Theorem fetch_markets_for_oracle_spec (get : Z -> result string)
  (oracle_id : Z) (ALL_MARKET : market_dict) :
  let r := fetch_markets_for_oracle get oracle_id ALL_MARKET in
  let d := snd (fst r) in
  let evs := snd r in
  fst (fst r) = Ok tt /\
  evs = match get 1 with
        | Ok a => [FetchGet 1 (Ok a)]
        | Raise e1 =>
            match get 2 with
            | Ok a =>
                [FetchGet 1 (Raise e1); FetchSleep (PyFloat.round_int 1);
                 FetchGet 2 (Ok a)]
            | Raise e2 =>
                match get 3 with
                | Ok a =>
                    [FetchGet 1 (Raise e1); FetchSleep (PyFloat.round_int 1);
                     FetchGet 2 (Raise e2); FetchSleep (PyFloat.round_int 2);
                     FetchGet 3 (Ok a)]
                | Raise e3 =>
                    [FetchGet 1 (Raise e1); FetchSleep (PyFloat.round_int 1);
                     FetchGet 2 (Raise e2); FetchSleep (PyFloat.round_int 2);
                     FetchGet 3 (Raise e3); FetchPrint e3]
                end
            end
        end /\
  fetch_requests evs =
    (if is_ok (get 1) then [1]
     else if is_ok (get 2) then [1; 2] else [1; 2; 3]) /\
  (1 <= List.length (fetch_requests evs) <= 3)%nat /\
  fetch_sleeps evs =
    firstn (List.length (fetch_requests evs) - 1)
      [PyFloat.round_int 1; PyFloat.round_int 2] /\
  d = match first_answer get with
      | Some a => dict_set ALL_MARKET oracle_id a
      | None => ALL_MARKET
      end /\
  dict_get d oracle_id = match first_answer get with
                         | Some a => Some a
                         | None => dict_get ALL_MARKET oracle_id
                         end /\
  (forall k, k <> oracle_id -> dict_get d k = dict_get ALL_MARKET k).
Proof.
  intros r d evs. subst r d evs. rewrite fetch_markets_for_oracle_eq.
  unfold first_answer.
  destruct (get 1) as [a|e1]; [|destruct (get 2) as [a|e2];
                                 [|destruct (get 3) as [a|e3]]];
    simpl; repeat split; try lia; try apply dict_get_set_same;
    try (intros k Hk; now apply dict_get_set_other).
Qed.

(** ** [run_for_markets] and [start_by_address] *)

Section Tasks.

Lemma map_fst_enumerate_snd {A} (l : list A) (start : Z) :
  map snd (enumerate start l) = l.
Proof.
  revert start. induction l as [|x r IH]; intros start; simpl;
    [reflexivity|]. now rewrite IH.
Qed.

End Tasks.

(** X6.  When [run_for_markets] gets as far as submitting tasks, there
    is one task per key of the key file, in file order, and the file has
    at least one key; all tasks carry the same converted amount, the
    outcome index given, the floor 0, and the token given, or
    [TOKEN_ADDRESS] when the token given is empty. *)
Theorem run_for_markets_tasks_shape
  (market_addresses : list string) (token_address : string)
  (buy_investment_human : PyFloat.float) (buy_outcome_index : Z)
  (proxies : option (list string)) (max_workers : option Z)
  (proxies_file keys_file : option (list string)) (tasks : list task) :
  run_for_markets_tasks market_addresses token_address buy_investment_human
    buy_outcome_index proxies max_workers proxies_file keys_file = Ok tasks ->
  exists amount keys,
    to_smallest_unit buy_investment_human 6 = Ok amount /\
    load_private_keys keys_file = Ok keys /\
    keys <> [] /\
    map task_pk tasks = keys /\
    Forall (fun t =>
              task_buy_amount_smallest t = amount /\
              task_buy_index t = buy_outcome_index /\
              task_buy_min_tokens t = 0 /\
              task_token_addr t =
                (if PyStr.truthy token_address then token_address
                 else TOKEN_ADDRESS))
      tasks.
Proof.
  unfold run_for_markets_tasks.
  change (Z.to_N TOKEN_DECIMALS) with 6%N.
  destruct (to_smallest_unit buy_investment_human 6) as [amount|];
    [|discriminate].
  destruct (load_private_keys keys_file) as [[|k ks]|]; try discriminate.
  destruct (thread_pool _); [|discriminate].
  generalize (map_fst_enumerate_snd (k :: ks) 1).
  generalize (enumerate 1 (k :: ks)). intros ips Hips H.
  injection H as <-. exists amount, (k :: ks).
  split; [reflexivity|]. split; [reflexivity|]. split; [discriminate|]. split.
  - now rewrite map_map.
  - apply Forall_map, Forall_forall. intros ip _. now repeat split.
Qed.

Lemma run_for_markets_tasks_shape_witness :
  exists amount keys,
    to_smallest_unit (PyFloat.literal 1 10) 6 = Ok amount /\
    load_private_keys (Some ["01"; "02"]) = Ok keys /\
    keys <> [] /\
    map task_pk
      [mk_task "0x01" [(0, ["0xM"])] TOKEN_ADDRESS 100000 1 0 None;
       mk_task "0x02" [(0, ["0xM"])] TOKEN_ADDRESS 100000 1 0 None] = keys /\
    Forall (fun t =>
              task_buy_amount_smallest t = amount /\
              task_buy_index t = 1 /\
              task_buy_min_tokens t = 0 /\
              task_token_addr t = TOKEN_ADDRESS)
      [mk_task "0x01" [(0, ["0xM"])] TOKEN_ADDRESS 100000 1 0 None;
       mk_task "0x02" [(0, ["0xM"])] TOKEN_ADDRESS 100000 1 0 None].
Proof.
  apply (@run_for_markets_tasks_shape ["0xM"] "" (PyFloat.literal 1 10) 1
           None (Some 8) None (Some ["01"; "02"])).
  reflexivity.
Defined.

(** X7.  The errors of [run_for_markets] before any task is submitted:
    the error of the amount conversion comes first; then
    [FileNotFoundError] for a missing key file; then [RuntimeError] for a
    key file with blank lines only; then [ValueError] for a negative
    [max_workers], which the thread pool refuses (0 and [None] stand for
    [MAX_WORKERS]); in every other case the tasks are submitted. *)
Theorem run_for_markets_tasks_errors
  (market_addresses : list string) (token_address : string)
  (buy_investment_human : PyFloat.float) (buy_outcome_index : Z)
  (proxies : option (list string)) (max_workers : option Z)
  (proxies_file keys_file : option (list string)) :
  let run := run_for_markets_tasks market_addresses token_address
               buy_investment_human buy_outcome_index proxies max_workers
               proxies_file keys_file in
  let blank l := negb (PyStr.truthy (PyStr.strip l)) in
  let negative := match max_workers with
                  | Some n => n <? 0
                  | None => false
                  end in
  (forall e, to_smallest_unit buy_investment_human 6 = Raise e ->
             run = Raise e) /\
  (is_ok (to_smallest_unit buy_investment_human 6) = true ->
   keys_file = None -> run = Raise FileNotFoundError) /\
  (forall lines,
      is_ok (to_smallest_unit buy_investment_human 6) = true ->
      keys_file = Some lines -> forallb blank lines = true ->
      run = Raise RuntimeError) /\
  (forall lines,
      is_ok (to_smallest_unit buy_investment_human 6) = true ->
      keys_file = Some lines -> forallb blank lines = false ->
      negative = true ->
      run = Raise ValueError) /\
  (forall lines,
      is_ok (to_smallest_unit buy_investment_human 6) = true ->
      keys_file = Some lines -> forallb blank lines = false ->
      negative = false ->
      is_ok run = true).
Proof.
  intros run blank negative. subst run.
  assert (B : forall lines,
             forallb blank lines = true
             <-> load_private_keys_loop lines [] = []).
  { intros lines. rewrite load_private_keys_loop_spec. simpl.
    induction lines as [|l r IH]; simpl; [tauto|]. unfold blank at 1.
    destruct (PyStr.truthy (PyStr.strip l)); simpl; [|exact IH].
    split; discriminate. }
  assert (P : thread_pool
                match max_workers with
                | Some n => if n =? 0 then MAX_WORKERS else n
                | None => MAX_WORKERS
                end = if negative then Raise ValueError else Ok tt).
  { unfold negative, thread_pool. destruct max_workers as [n|]; [|reflexivity].
    destruct (Z.eqb_spec n 0) as [->|N]; [reflexivity|].
    destruct (Z.leb_spec n 0), (Z.ltb_spec n 0); try reflexivity; lia. }
  unfold run_for_markets_tasks. change (Z.to_N TOKEN_DECIMALS) with 6%N.
  destruct (to_smallest_unit buy_investment_human 6) as [amount|e].
  - split; [discriminate|]. split; [now intros _ ->|]. split; [|split].
    + intros lines _ -> F. apply B in F. simpl. now rewrite F.
    + intros lines _ -> F Hn. simpl.
      destruct (load_private_keys_loop lines []) eqn:E;
        [apply B in E; congruence|].
      cbv zeta. now rewrite P, Hn.
    + intros lines _ -> F Hn. simpl.
      destruct (load_private_keys_loop lines []) eqn:E;
        [apply B in E; congruence|].
      cbv zeta. now rewrite P, Hn.
  - split; [now intros e' [= ->]|]. repeat split; discriminate.
Qed.

(** A negative pool width, with a good amount and a good key file. *)
Lemma run_for_markets_tasks_errors_witness :
  run_for_markets_tasks ["0xM"] "" (PyFloat.literal 1 10) 0
    None (Some (-1)) None (Some [""; "01"]) = Raise ValueError.
Proof.
  apply (proj1 (proj2 (proj2 (proj2
           (run_for_markets_tasks_errors ["0xM"] "" (PyFloat.literal 1 10) 0
              None (Some (-1)) None (Some [""; "01"]))))) [""; "01"]);
    reflexivity.
Defined.

(** X8.  [start_by_address] raises [ValueError] on an empty address;
    when it submits tasks, each of them walks the one-market map
    [{0: [address]}] on the default token with floor 0. *)
Theorem start_by_address_spec (address : string)
  (buy_investment_human : PyFloat.float) (buy_outcome_index : Z)
  (proxies_file keys_file : option (list string)) :
  (address = EmptyString ->
   start_by_address_tasks address buy_investment_human buy_outcome_index
     proxies_file keys_file = Raise ValueError) /\
  (forall tasks,
      start_by_address_tasks address buy_investment_human buy_outcome_index
        proxies_file keys_file = Ok tasks ->
      address <> EmptyString /\
      Forall (fun t => task_spenders t = [(0, [address])] /\
                       task_token_addr t = TOKEN_ADDRESS /\
                       task_buy_min_tokens t = 0)
        tasks).
Proof.
  split.
  - intros ->. reflexivity.
  - intros tasks. unfold start_by_address_tasks.
    destruct address as [|c r]; [discriminate|]. cbn [PyStr.truthy negb].
    intros H. split; [discriminate|]. revert H.
    unfold run_for_markets_tasks.
    destruct (to_smallest_unit _ _); [|discriminate].
    destruct (load_private_keys keys_file) as [[|k ks]|]; try discriminate.
    destruct (thread_pool _); [|discriminate].
    generalize (enumerate 1 (k :: ks)). intros ips H. injection H as <-.
    apply Forall_map, Forall_forall. intros ip _. now repeat split.
Qed.

Lemma start_by_address_spec_witness :
  "0xM" <> EmptyString /\
  Forall (fun t => task_spenders t = [(0, ["0xM"])] /\
                   task_token_addr t = TOKEN_ADDRESS /\
                   task_buy_min_tokens t = 0)
    [mk_task "0x01" [(0, ["0xM"])] TOKEN_ADDRESS 100000 0 0 None].
Proof.
  apply (proj2 (start_by_address_spec "0xM" (PyFloat.literal 1 10) 0
                  None (Some ["01"]))).
  reflexivity.
Defined.

(** ** [to_smallest_unit] on amounts that are not finite *)

(** X9.  [to_smallest_unit] raises on an amount that is NaN or
    infinite, whatever the number of decimals. *)
Theorem to_smallest_unit_not_finite (amount_human : PyFloat.float)
  (decimals : N) :
  amount_human = S754_nan \/ (exists s, amount_human = S754_infinity s) ->
  is_ok (to_smallest_unit amount_human decimals) = false.
Proof.
  intros H. unfold to_smallest_unit, PyFloat.mul_int, PyFloat.of_int.
  destruct H as [->|[s ->]];
    destruct (PyFloat.round_int (10 ^ Z.of_N decimals)) as [s'|s'| |s' m' e'];
    reflexivity.
Qed.

Lemma to_smallest_unit_not_finite_witness :
  is_ok (to_smallest_unit S754_nan 6) = false.
Proof. apply to_smallest_unit_not_finite. now left. Defined.

(** ** More on the worker *)

Section StepsFull.

Lemma approve_step_full sc pk addr token_cs market_cs s :
  exists evs skipped,
    approve_step sc pk addr token_cs market_cs s
    = (Ok tt, after_approve s (some_confirmed evs) skipped evs) /\
    approve_outcome sc addr token_cs market_cs (nonce s) skipped evs.
Proof.
  destruct s as [n sa sb sk it tr].
  unfold approve_step, allowance_enough, wait_for_transaction_receipt.
  unfold try_except, bind, lift, ret, get, sleep. simpl.
  destruct (call_allowance (token_view sc) addr market_cs) as [val|e0] eqn:A;
    [destruct (ALLOWANCE_THRESHOLD <=? val) eqn:T|].
  1: { exists [], true. split.
       - unfold after_approve. simpl. now rewrite app_nil_r, !Z.add_0_r.
       - left. repeat split. exists val. split; [exact A|].
         now apply Z.leb_le. }
  all: destruct (approve_gas_price sc) as [gp|e1] eqn:G;
       [destruct (approve_build sc) as [[]|e2];
        [destruct (approve_sign sc) as [[]|e3]|]|].
  all: try rewrite send_raw_with_retry_eq.
  all: split_results.
  all: rewrite ?emit_eq, ?add_events_app.
  all: eexists; exists false.
  all: (split;
        [ unfold incr_nonce, incr_sent_approve, modify, add_events,
            after_approve; simpl; rewrite <- ?app_assoc; simpl;
          close_state; unfold some_confirmed; simpl;
          rewrite ?Heqb; simpl; rewrite ?Z.add_0_r; reflexivity
        | right; split; [reflexivity|]; simpl;
          first [ left; split; reflexivity
                | right; eexists; split; [eassumption|];
                  split; [reflexivity|congruence] ] ]).
Qed.

Variable to_checksum_address : string -> result string.

(** The loop body, its binds unfolded. *)
Lemma target_body_unfold w pk addr token_cs amount index min_tokens
  market_addr s :
  target_body to_checksum_address w pk addr token_cs
    amount index min_tokens market_addr s =
  match to_checksum_address market_addr with
  | Raise e => (Raise e, after_skip s)
  | Ok market_cs =>
      match call_balanceOf (token_view (script w (iter s))) addr with
      | Raise e => (Raise e, after_skip s)
      | Ok b =>
          match py_truediv_check b (10 ^ TOKEN_DECIMALS) with
          | Raise e => (Raise e, after_skip s)
          | Ok _ =>
              match py_truediv_check amount (10 ^ TOKEN_DECIMALS) with
              | Raise e => (Raise e, after_skip s)
              | Ok _ =>
                  if b <? amount then (Ok tt, after_skip s)
                  else
                    buy_step (script w (iter s)) pk addr market_cs
                      amount index min_tokens
                      (snd (approve_step (script w (iter s)) pk addr token_cs
                              market_cs (after_skip s)))
              end
          end
      end
  end.
Proof.
  unfold target_body, next_iter.
  unfold bind at 1. cbv beta iota. fold (after_skip s).
  unfold bind at 1, lift at 1.
  destruct (to_checksum_address market_addr) as [market_cs|]; [|reflexivity].
  cbv beta iota. unfold bind at 1, lift at 1.
  destruct (call_balanceOf _ _) as [b|]; [|reflexivity].
  cbv beta iota. unfold bind at 1, lift at 1.
  destruct (py_truediv_check b _) as [[]|]; [|reflexivity].
  cbv beta iota. unfold bind at 1, lift at 1.
  destruct (py_truediv_check amount _) as [[]|]; [|reflexivity].
  cbv beta iota. destruct (b <? amount); [reflexivity|].
  unfold bind.
  destruct (approve_step_cases (script w (iter s)) pk addr token_cs market_cs
              (after_skip s)) as [evs [skipped [E _]]].
  now rewrite E.
Qed.

(** The loop body stops at the gate, or is the two steps in a row. *)
Lemma target_body_split w pk addr token_cs amount index min_tokens
  market_addr s :
  (snd (target_body to_checksum_address w pk addr token_cs
          amount index min_tokens market_addr s) = after_skip s) \/
  (exists market_cs,
      to_checksum_address market_addr = Ok market_cs /\
      target_body to_checksum_address w pk addr token_cs
        amount index min_tokens market_addr s
      = buy_step (script w (iter s)) pk addr market_cs amount index min_tokens
          (snd (approve_step (script w (iter s)) pk addr token_cs market_cs
                  (after_skip s)))).
Proof.
  rewrite target_body_unfold.
  destruct (to_checksum_address market_addr) as [market_cs|]; [|now left].
  destruct (call_balanceOf _ _) as [b|]; [|now left].
  destruct (py_truediv_check b _) as [[]|]; [|now left].
  destruct (py_truediv_check amount _) as [[]|]; [|now left].
  destruct (b <? amount); [now left|].
  right. exists market_cs. now split.
Qed.

End StepsFull.

Section Stretch.

Variable to_checksum_address : string -> result string.
Variable address_of_key : string -> result string.
Variable R : wstate -> list event -> wstate -> Prop.
Hypothesis R_same : forall s, R s [] s.
Hypothesis R_skip : forall s, R s [] (after_skip s).
Hypothesis R_trans :
  forall s e1 s1 e2 s2, R s e1 s1 -> R s1 e2 s2 -> R s (e1 ++ e2) s2.

Lemma stretch_ret {A} (a : A) : stretch R (ret a).
Proof. intros s. exists []. simpl. now rewrite app_nil_r. Qed.

Lemma stretch_bind {A B} (m : M A) (k : A -> M B) :
  stretch R m -> (forall a, stretch R (k a)) -> stretch R (bind m k).
Proof.
  intros Hm Hk s. unfold bind. destruct (Hm s) as [e1 [T1 R1]].
  destruct (m s) as [[a|e] s1]; simpl in *.
  - destruct (Hk a s1) as [e2 [T2 R2]]. exists (e1 ++ e2). split.
    + now rewrite T2, T1, app_assoc.
    + eapply R_trans; eassumption.
  - exists e1. now split.
Qed.

Lemma stretch_for_each {A} (l : list A) (body : A -> M unit) :
  (forall x, In x l -> stretch R (body x)) -> stretch R (for_each l body).
Proof.
  induction l as [|x r IH]; intros Hb; simpl.
  - apply stretch_ret.
  - apply stretch_bind; [apply Hb; now left|]. intros _.
    apply IH. intros y Hy. apply Hb. now right.
Qed.

(** The loop body inherits from the two steps. *)
Lemma stretch_target_body w pk addr token_cs amount index min_tokens market_addr :
  (forall sc market_cs,
      to_checksum_address market_addr = Ok market_cs ->
      stretch R (approve_step sc pk addr token_cs market_cs) /\
      stretch R (buy_step sc pk addr market_cs amount index min_tokens)) ->
  stretch R (target_body to_checksum_address w pk addr token_cs
               amount index min_tokens market_addr).
Proof.
  intros H s.
  destruct (target_body_split to_checksum_address w pk addr token_cs
              amount index min_tokens market_addr s)
    as [E|[market_cs [C E]]]; rewrite E.
  - exists []. split; [simpl; now rewrite app_nil_r|apply R_skip].
  - destruct (H (script w (iter s)) market_cs C) as [Ha Hb].
    destruct (Ha (after_skip s)) as [ea [Ta Ra]].
    destruct (Hb (snd (approve_step (script w (iter s)) pk addr token_cs
                         market_cs (after_skip s)))) as [eb [Tb Rb]].
    exists (ea ++ eb). split.
    + rewrite Tb, Ta. simpl. now rewrite app_assoc.
    + change (ea ++ eb) with ([] ++ ea ++ eb).
      eapply R_trans; [apply R_skip|]. eapply R_trans; eassumption.
Qed.

Lemma stretch_wallet_loop w pk addr token_cs amount index min_tokens
  (spenders_by_oracle : list (Z * list string)) :
  (forall m, In m (targets_of spenders_by_oracle) ->
             stretch R (target_body to_checksum_address w pk addr token_cs
                          amount index min_tokens m)) ->
  stretch R (wallet_loop to_checksum_address w pk addr token_cs
               amount index min_tokens spenders_by_oracle).
Proof.
  intros H. unfold wallet_loop. apply stretch_for_each. intros item Hi.
  apply stretch_for_each. intros m Hm. apply H.
  unfold targets_of. apply in_concat. exists (snd item). split; [|exact Hm].
  now apply in_map.
Qed.

(** The three ways a run of the worker can go. *)
Lemma wallet_worker_outcome w pk spenders_by_oracle token_addr
  amount index min_tokens proxy_url :
  (forall addr token_cs m,
      address_of_key pk = Ok addr ->
      to_checksum_address token_addr = Ok token_cs ->
      In m (targets_of spenders_by_oracle) ->
      stretch R (target_body to_checksum_address w pk addr token_cs
                   amount index min_tokens m)) ->
  let run := wallet_worker to_checksum_address address_of_key w pk
               spenders_by_oracle token_addr amount index min_tokens
               proxy_url init_wstate in
  (snd run = init_wstate /\ is_ok (fst run) = false) \/
  (snd run = init_wstate /\
   exists addr, fst run = Ok (addr, 0, 0, 0) /\ is_ok (pending_nonce w) = false) \/
  (exists addr token_cs n evs,
      connected w proxy_url = true /\
      address_of_key pk = Ok addr /\
      to_checksum_address token_addr = Ok token_cs /\
      pending_nonce w = Ok n /\
      trace (snd run) = evs /\
      R (mk_wstate n 0 0 0 0 []) evs (snd run) /\
      (fst run = Ok (addr, sent_approve (snd run), sent_buy (snd run),
                     skipped_approve (snd run)) \/
       is_ok (fst run) = false)).
Proof.
  intros H run. subst run.
  unfold wallet_worker, bind, lift, ret, raise, set_nonce, modify, get.
  destruct (connected w proxy_url) eqn:C; simpl; [|now left].
  destruct (address_of_key pk) as [addr|] eqn:A; simpl; [|now left].
  destruct (to_checksum_address token_addr) as [token_cs|] eqn:T; simpl;
    [|now left].
  destruct (pending_nonce w) as [n|] eqn:N; simpl.
  2: { right. left. split; [reflexivity|]. exists addr. now split. }
  right. right. exists addr, token_cs, n.
  match goal with
  | |- context [wallet_loop _ _ _ _ _ _ _ _ _ ?s0] =>
      destruct (@stretch_wallet_loop w pk addr token_cs amount index min_tokens
                  spenders_by_oracle
                  (fun m Hm => H addr token_cs m eq_refl eq_refl Hm) s0)
        as [evs [Tr Rr]];
      destruct (wallet_loop to_checksum_address w pk addr token_cs
                  amount index min_tokens spenders_by_oracle s0)
        as [[[]|e] s1]
  end; simpl in *; exists evs; repeat split; auto.
Qed.

End Stretch.

Section Counting.

Lemma count_buys_app (a b : list event) :
  count_buys (a ++ b) = count_buys a + count_buys b.
Proof.
  unfold count_buys. rewrite sent_txs_app, filter_app, length_app. lia.
Qed.

Lemma count_approves_app (a b : list event) :
  count_approves (a ++ b) = count_approves a + count_approves b.
Proof.
  unfold count_approves. rewrite sent_txs_app, filter_app, length_app. lia.
Qed.

Lemma count_confirmed_app (a b : list event) :
  count_confirmed (a ++ b) = count_confirmed a + count_confirmed b.
Proof.
  unfold count_confirmed. rewrite receipts_app, filter_app, length_app. lia.
Qed.

Lemma accounts_same (s : wstate) : accounts s [] s.
Proof. constructor; simpl; unfold count_confirmed, count_buys, count_approves;
         simpl; lia. Qed.

Lemma accounts_skip (s : wstate) : accounts s [] (after_skip s).
Proof. constructor; simpl; unfold count_confirmed, count_buys, count_approves;
         simpl; lia. Qed.

Lemma accounts_trans s e1 s1 e2 s2 :
  accounts s e1 s1 -> accounts s1 e2 s2 -> accounts s (e1 ++ e2) s2.
Proof.
  intros [N1 A1 B1 C1 K1] [N2 A2 B2 C2 K2].
  constructor;
    rewrite ?count_confirmed_app, ?count_buys_app, ?count_approves_app; lia.
Qed.

Lemma approve_step_accounts sc pk addr token_cs market_cs :
  stretch accounts (approve_step sc pk addr token_cs market_cs).
Proof.
  intros s.
  destruct (approve_step_full sc pk addr token_cs market_cs s)
    as [evs [skipped [E O]]].
  exists evs. rewrite E. split; [reflexivity|].
  assert (Hk : 0 <= bump skipped) by (destruct skipped; simpl; lia).
  unfold some_confirmed.
  destruct O as [[_ [-> _]]|[_ [[Hs Hr]|[gp [_ [Hs Hr]]]]]];
    constructor; simpl;
    unfold count_confirmed, count_buys, count_approves;
    rewrite ?Hs, ?Hr; simpl; try lia.
  all: destruct (receipt_confirmed (approve_receipt sc)); simpl; lia.
Qed.

Lemma buy_step_accounts sc pk addr market_cs amount index min_tokens :
  stretch accounts (buy_step sc pk addr market_cs amount index min_tokens).
Proof.
  intros s.
  destruct (buy_step_cases sc pk addr market_cs amount index min_tokens s)
    as [evs [E [Hr [Hs|[gp Hs]]]]].
  all: exists evs; rewrite E; split; [reflexivity|].
  all: constructor; simpl; unfold count_confirmed, count_buys, count_approves;
    rewrite ?Hs, ?Hr; simpl; lia.
Qed.

Lemma per_iteration_same (s : wstate) : per_iteration s [] s.
Proof. constructor; simpl; unfold count_buys, count_approves; simpl; lia. Qed.

Lemma per_iteration_trans s e1 s1 e2 s2 :
  per_iteration s e1 s1 -> per_iteration s1 e2 s2 ->
  per_iteration s (e1 ++ e2) s2.
Proof.
  intros [I1 K1 B1 A1] [I2 K2 B2 A2].
  constructor; rewrite ?count_buys_app, ?count_approves_app; lia.
Qed.

Variable to_checksum_address : string -> result string.

Lemma target_body_per_iteration w pk addr token_cs amount index min_tokens m :
  stretch per_iteration
    (target_body to_checksum_address w pk addr token_cs
       amount index min_tokens m).
Proof.
  intros s.
  destruct (target_body_split to_checksum_address w pk addr token_cs
              amount index min_tokens m s) as [E|[market_cs [C E]]]; rewrite E.
  - exists []. split; [simpl; now rewrite app_nil_r|].
    constructor; cbn -[Z.of_nat]; unfold count_buys, count_approves;
      cbn -[Z.of_nat]; lia.
  - destruct (approve_step_full (script w (iter s)) pk addr token_cs market_cs
                (after_skip s)) as [ea [skipped [Ea O]]].
    rewrite Ea. cbn [snd].
    destruct (buy_step_cases (script w (iter s)) pk addr market_cs
                amount index min_tokens
                (after_approve (after_skip s) (some_confirmed ea) skipped ea))
      as [eb [Eb [_ Hb]]].
    rewrite Eb. exists (ea ++ eb). split; [simpl; now rewrite app_assoc|].
    assert (Hbuy : count_buys ea = 0 /\ count_approves eb = 0 /\
                   0 <= count_buys eb <= 1).
    { unfold count_buys, count_approves.
      destruct O as [[_ [-> _]]|[_ [[-> _]|[gp [_ [-> _]]]]]];
        destruct Hb as [->|[gp' ->]]; simpl; lia. }
    assert (Happ : count_approves ea + bump skipped <= 1 /\ 0 <= bump skipped).
    { unfold count_approves.
      destruct O as [[-> [-> _]]|[-> [[-> _]|[gp [_ [-> _]]]]]]; simpl; lia. }
    constructor; cbn -[Z.of_nat];
      rewrite ?count_buys_app, ?count_approves_app; lia.
Qed.

End Counting.

Section WorkerFacts.

Variable to_checksum_address : string -> result string.
Variable address_of_key : string -> result string.

Lemma target_body_accounts w pk addr token_cs amount index min_tokens m :
  stretch accounts
    (target_body to_checksum_address w pk addr token_cs
       amount index min_tokens m).
Proof.
  apply (@stretch_target_body to_checksum_address accounts
           accounts_skip accounts_trans).
  intros sc market_cs _. split;
    [apply approve_step_accounts|apply buy_step_accounts].
Qed.

Lemma list_sum_lengths (spenders_by_oracle : list (Z * list string)) :
  list_sum (map (fun item => List.length (snd item)) spenders_by_oracle)
  = List.length (targets_of spenders_by_oracle).
Proof.
  unfold targets_of. induction spenders_by_oracle as [|i r IH]; simpl;
    [reflexivity|]. now rewrite length_app, IH.
Qed.

(** A worker begins at most one iteration per market of its map. *)
Lemma wallet_worker_iterations w pk spenders_by_oracle token_addr
  amount index min_tokens proxy_url :
  (iter (snd (wallet_worker to_checksum_address address_of_key w pk
                spenders_by_oracle token_addr amount index min_tokens
                proxy_url init_wstate))
   <= List.length (targets_of spenders_by_oracle))%nat.
Proof.
  unfold wallet_worker, bind, lift, ret, raise, set_nonce, modify, get.
  destruct (connected w proxy_url); simpl; [|lia].
  destruct (address_of_key pk) as [addr|]; simpl; [|lia].
  destruct (to_checksum_address token_addr) as [token_cs|]; simpl; [|lia].
  destruct (pending_nonce w) as [n|]; simpl; [|lia].
  rewrite <- list_sum_lengths.
  match goal with
  | |- context [wallet_loop _ _ _ _ _ _ _ _ ?m ?s0] =>
      pose proof (wallet_loop_begins to_checksum_address w pk addr token_cs
                    amount index min_tokens m s0) as H;
      destruct (wallet_loop to_checksum_address w pk addr token_cs
                  amount index min_tokens m s0) as [[[]|e] s1]
  end; simpl in *; lia.
Qed.

End WorkerFacts.

(** X10.  The counts a worker returns agree with what it sent: the
    approvals count is the number of receipts with status 1, at most the
    number of approves the node accepted; the buys count is the number of
    buys the node accepted; the skip count is not negative; and the local
    nonce ends at the pending nonce plus the two counts. *)
Theorem wallet_worker_accounts
  (to_checksum_address address_of_key : string -> result string) (w : world)
  (pk : string) (spenders_by_oracle : list (Z * list string))
  (token_addr : string) (amount index min_tokens : Z)
  (proxy_url : option string) (a : string) (x y z : Z) :
  let run := wallet_worker to_checksum_address address_of_key w pk
               spenders_by_oracle token_addr amount index min_tokens
               proxy_url init_wstate in
  fst run = Ok (a, x, y, z) ->
  x = count_confirmed (trace (snd run)) /\
  y = count_buys (trace (snd run)) /\
  x <= count_approves (trace (snd run)) /\
  0 <= z /\
  (forall n, pending_nonce w = Ok n -> nonce (snd run) = n + x + y).
Proof.
  intros run Hr. unfold run in *. clear run.
  destruct (@wallet_worker_outcome to_checksum_address address_of_key accounts
              accounts_same accounts_trans w pk spenders_by_oracle token_addr
              amount index min_tokens proxy_url
              (fun addr token_cs m _ _ _ =>
                 target_body_accounts to_checksum_address w pk addr token_cs
                   amount index min_tokens m))
    as [[_ F]|[[E [addr [Ha N]]]|
        [addr [token_cs [n [evs [_ [_ [_ [N [T [[An Aa Ab Ac Ak] F]]]]]]]]]]]].
  - rewrite Hr in F. discriminate.
  - rewrite Hr in Ha. injection Ha as -> -> -> ->. rewrite E.
    repeat split; try (vm_compute; congruence).
    intros n Hn. rewrite Hn in N. discriminate.
  - destruct F as [F|F]; [|rewrite Hr in F; discriminate].
    rewrite Hr in F. injection F as -> -> -> ->.
    rewrite T. simpl in *. repeat split; try lia.
    intros n' Hn'. rewrite N in Hn'. injection Hn' as <-. lia.
Qed.

Lemma wallet_worker_accounts_witness :
  1 = count_confirmed
        (trace (snd (ex_run (ex_world 1000000 (Ok 1) 100 100) ["0xM"] 100000 0 0))) /\
  1 = count_buys
        (trace (snd (ex_run (ex_world 1000000 (Ok 1) 100 100) ["0xM"] 100000 0 0))) /\
  1 <= count_approves
         (trace (snd (ex_run (ex_world 1000000 (Ok 1) 100 100) ["0xM"] 100000 0 0))) /\
  0 <= 0 /\
  (forall n, pending_nonce (ex_world 1000000 (Ok 1) 100 100) = Ok n ->
             nonce (snd (ex_run (ex_world 1000000 (Ok 1) 100 100) ["0xM"] 100000 0 0))
             = n + 1 + 1).
Proof.
  apply (@wallet_worker_accounts ex_checksum ex_address
           (ex_world 1000000 (Ok 1) 100 100) "0x01" [(0, ["0xM"])]
           TOKEN_ADDRESS 100000 0 0 None "0xAcc" 1 1 0).
  vm_compute. reflexivity.
Defined.

(** X11.  In a run over a map of n markets the node accepts at most n
    buys, and the approves it accepts plus the approvals skipped are at
    most n; so are the counts of the worker. *)
Theorem wallet_worker_bounds
  (to_checksum_address address_of_key : string -> result string) (w : world)
  (pk : string) (spenders_by_oracle : list (Z * list string))
  (token_addr : string) (amount index min_tokens : Z)
  (proxy_url : option string) :
  let sf := snd (wallet_worker to_checksum_address address_of_key w pk
                   spenders_by_oracle token_addr amount index min_tokens
                   proxy_url init_wstate) in
  let targets := Z.of_nat (List.length (targets_of spenders_by_oracle)) in
  count_buys (trace sf) <= targets /\
  count_approves (trace sf) + skipped_approve sf <= targets /\
  sent_buy sf <= targets /\
  sent_approve sf + skipped_approve sf <= targets.
Proof.
  intros sf targets. unfold sf, targets. clear sf targets.
  pose proof (wallet_worker_iterations to_checksum_address address_of_key
                w pk spenders_by_oracle token_addr amount index min_tokens
                proxy_url) as Hi.
  set (R := fun s e s' => accounts s e s' /\ per_iteration s e s').
  assert (R_same : forall s, R s [] s)
    by (intros s; split; [apply accounts_same|apply per_iteration_same]).
  assert (R_trans : forall s e1 s1 e2 s2,
             R s e1 s1 -> R s1 e2 s2 -> R s (e1 ++ e2) s2).
  { intros s e1 s1 e2 s2 [A1 P1] [A2 P2]. split;
      [eapply accounts_trans|eapply per_iteration_trans]; eassumption. }
  assert (R_body : forall addr token_cs m,
             stretch R (target_body to_checksum_address w pk addr token_cs
                          amount index min_tokens m)).
  { intros addr token_cs m s.
    destruct (target_body_accounts to_checksum_address w pk addr token_cs
                amount index min_tokens m s) as [e1 [T1 A1]].
    destruct (target_body_per_iteration to_checksum_address w pk addr token_cs
                amount index min_tokens m s) as [e2 [T2 P2]].
    rewrite T1 in T2. apply app_inv_head in T2. subst e2.
    exists e1. split; [exact T1|]. split; assumption. }
  destruct (@wallet_worker_outcome to_checksum_address address_of_key R
              R_same R_trans w pk spenders_by_oracle token_addr
              amount index min_tokens proxy_url
              (fun addr token_cs m _ _ _ => R_body addr token_cs m))
    as [[E _]|[[E _]|
        [addr [token_cs [n [evs [_ [_ [_ [_ [T [[[Hn Ha Hb Hc Hk] [Qi Qk Qb Qa]] _]]]]]]]]]]]].
  - rewrite E. unfold count_buys, count_approves. simpl. lia.
  - rewrite E. unfold count_buys, count_approves. simpl. lia.
  - rewrite T. cbn -[Z.of_nat] in *. lia.
Qed.

(** X12.  Every transaction the node accepts in a run is sent from the
    account of the key, with no value attached and the chain id of the
    script, and is either an approve of [MAX_UINT256] on the token, for
    the checksum form of a market of the map, with gas limit
    [GAS_LIMIT_APPROVE], or a buy sent to the checksum form of a market of
    the map with gas limit [GAS_LIMIT_BUY]. *)
Theorem wallet_worker_transactions
  (to_checksum_address address_of_key : string -> result string) (w : world)
  (pk : string) (spenders_by_oracle : list (Z * list string))
  (token_addr : string) (amount index min_tokens : Z)
  (proxy_url : option string) (addr token_cs : string) :
  address_of_key pk = Ok addr ->
  to_checksum_address token_addr = Ok token_cs ->
  Forall (tx_wf to_checksum_address addr token_cs
            (targets_of spenders_by_oracle))
    (sent_txs (trace (snd (wallet_worker to_checksum_address address_of_key
                             w pk spenders_by_oracle token_addr amount index
                             min_tokens proxy_url init_wstate)))).
Proof.
  intros Ha Ht.
  set (P := tx_wf to_checksum_address addr token_cs
              (targets_of spenders_by_oracle)).
  set (R := fun (s : wstate) (e : list event) (s' : wstate) =>
              Forall P (sent_txs e)).
  assert (R_same : forall s, R s [] s) by (intros s; constructor).
  assert (R_trans : forall s e1 s1 e2 s2,
             R s e1 s1 -> R s1 e2 s2 -> R s (e1 ++ e2) s2).
  { intros s e1 s1 e2 s2 H1 H2. unfold R. rewrite sent_txs_app.
    apply Forall_app. now split. }
  assert (R_body : forall m, In m (targets_of spenders_by_oracle) ->
             stretch R (target_body to_checksum_address w pk addr token_cs
                          amount index min_tokens m)).
  { intros m Hm.
    apply (@stretch_target_body to_checksum_address R R_same R_trans).
    intros sc market_cs Hc. split; intros s.
    - destruct (approve_step_full sc pk addr token_cs market_cs s)
        as [evs [skipped [E O]]].
      exists evs. rewrite E. split; [reflexivity|]. unfold R.
      destruct O as [[_ [-> _]]|[_ [[-> _]|[gp [_ [-> _]]]]]];
        try constructor; [|constructor].
      unfold P, tx_wf. simpl. repeat split. exists m. now split.
    - destruct (buy_step_cases sc pk addr market_cs amount index min_tokens s)
        as [evs [E [_ [Hs|[gp Hs]]]]];
        exists evs; rewrite E; (split; [reflexivity|]); unfold R; rewrite Hs;
        constructor; [|constructor].
      unfold P, tx_wf. simpl. repeat split. exists m. now split. }
  destruct (@wallet_worker_outcome to_checksum_address address_of_key R
              R_same R_trans w pk spenders_by_oracle token_addr
              amount index min_tokens proxy_url)
    as [[E _]|[[E _]|
        [addr' [token_cs' [n [evs [_ [_ [_ [_ [T [Hr _]]]]]]]]]]]].
  - intros addr' token_cs' m Ha' Ht' Hm.
    rewrite Ha in Ha'. rewrite Ht in Ht'.
    injection Ha' as <-. injection Ht' as <-. now apply R_body.
  - rewrite E. constructor.
  - rewrite E. constructor.
  - rewrite T. exact Hr.
Qed.

Lemma wallet_worker_transactions_witness :
  Forall (tx_wf ex_checksum "0xAcc" TOKEN_ADDRESS (targets_of [(0, ["0xM"; "0xN"])]))
    (sent_txs (trace (snd (ex_run (ex_world 1000000 (Ok 1) 100 100)
                             ["0xM"; "0xN"] 100000 0 0)))).
Proof.
  apply (@wallet_worker_transactions ex_checksum ex_address
           (ex_world 1000000 (Ok 1) 100 100) "0x01" [(0, ["0xM"; "0xN"])]
           TOKEN_ADDRESS 100000 0 0 None "0xAcc" TOKEN_ADDRESS);
    reflexivity.
Defined.

(** X13.  One loop iteration sends at most one approve and then at most
    one buy, in this order; it awaits a receipt only for an approve the
    node accepted and never for a buy; and it counts as one iteration
    however it ends. *)
Theorem target_body_order
  (to_checksum_address : string -> result string) (w : world)
  (pk addr token_cs : string) (amount index min_tokens : Z)
  (market_addr : string) (s : wstate) :
  let s' := snd (target_body to_checksum_address w pk addr token_cs
                   amount index min_tokens market_addr s) in
  exists ea eb,
    trace s' = trace s ++ ea ++ eb /\
    (List.length (sent_txs ea) <= 1)%nat /\
    Forall (fun t => is_buy t = false) (sent_txs ea) /\
    (List.length (sent_txs eb) <= 1)%nat /\
    Forall (fun t => is_buy t = true) (sent_txs eb) /\
    receipts eb = [] /\
    (List.length (receipts ea) <= List.length (sent_txs ea))%nat /\
    iter s' = S (iter s).
Proof.
  intros s'. subst s'.
  destruct (target_body_split to_checksum_address w pk addr token_cs
              amount index min_tokens market_addr s)
    as [E|[market_cs [C E]]]; rewrite E.
  - exists [], []. simpl. rewrite app_nil_r. repeat split; auto.
  - destruct (approve_step_full (script w (iter s)) pk addr token_cs market_cs
                (after_skip s)) as [ea [skipped [Ea O]]].
    rewrite Ea. cbn [snd].
    destruct (buy_step_cases (script w (iter s)) pk addr market_cs
                amount index min_tokens
                (after_approve (after_skip s) (some_confirmed ea) skipped ea))
      as [eb [Eb [Hr Hb]]].
    rewrite Eb. exists ea, eb. split; [simpl; now rewrite app_assoc|].
    split; [|split; [|split; [|split; [|split; [exact Hr|split]]]]].
    + destruct O as [[_ [-> _]]|[_ [[-> _]|[gp [_ [-> _]]]]]]; simpl; lia.
    + destruct O as [[_ [-> _]]|[_ [[-> _]|[gp [_ [-> _]]]]]];
        repeat constructor.
    + destruct Hb as [->|[gp ->]]; simpl; lia.
    + destruct Hb as [->|[gp ->]]; repeat constructor.
    + destruct O as [[_ [-> _]]|[_ [[-> ->]|[gp [_ [-> ->]]]]]]; simpl; lia.
    + reflexivity.
Qed.

(** X14.  When the balance suffices and the allowance read is at or
    above the threshold, the approval step sends nothing and adds one to
    the skip count only, and the loop body is the buy step run at the
    unchanged nonce. *)
Theorem sufficient_allowance_skips_approve
  (to_checksum_address : string -> result string) (w : world)
  (pk addr token_cs : string) (amount index min_tokens : Z)
  (market_addr market_cs : string) (b v : Z) (s : wstate) :
  to_checksum_address market_addr = Ok market_cs ->
  call_balanceOf (token_view (script w (iter s))) addr = Ok b ->
  0 <= amount <= b ->
  call_allowance (token_view (script w (iter s))) addr market_cs = Ok v ->
  ALLOWANCE_THRESHOLD <= v ->
  let skipped := mk_wstate (nonce s) (sent_approve s) (sent_buy s)
                   (skipped_approve s + 1) (S (iter s)) (trace s) in
  approve_step (script w (iter s)) pk addr token_cs market_cs (after_skip s)
    = (Ok tt, skipped) /\
  target_body to_checksum_address w pk addr token_cs amount index min_tokens
    market_addr s
    = buy_step (script w (iter s)) pk addr market_cs amount index min_tokens
        skipped.
Proof.
  intros Hc Hb Ha A T skipped.
  assert (E : approve_step (script w (iter s)) pk addr token_cs market_cs
                (after_skip s) = (Ok tt, skipped)).
  { apply Z.leb_le in T.
    unfold approve_step, allowance_enough, try_except, bind, lift, ret. simpl.
    rewrite A. simpl. now rewrite T. }
  split; [exact E|].
  pose proof (call_balanceOf_range _ _ Hb) as Hr.
  rewrite (target_body_gate _ _ _ _ _ _ _ _ _ Hc Hb) by lia.
  destruct (Z.ltb_spec b amount); [lia|].
  unfold bind. now rewrite E.
Qed.

Lemma sufficient_allowance_skips_approve_witness :
  let w := mk_world (fun _ => true) (Ok 5)
             (fun _ =>
                mk_script
                  (mk_token (fun _ _ => Ok MAX_UINT256) (fun _ => Ok 1000000))
                  (Ok 100) (Ok tt) (Ok tt) (fun _ => Ok 11)
                  (fun _ => S754_zero false) (Ok 1) (Ok 100) (Ok tt) (Ok tt)
                  (fun _ => Ok 22) (fun _ => S754_zero false)
                  (S754_zero false)) in
  let skipped := mk_wstate 0 0 0 (0 + 1) 1 [] in
  approve_step (script w 0%nat) "0x01" "0xAcc" TOKEN_ADDRESS "0xM"
    (after_skip init_wstate) = (Ok tt, skipped) /\
  target_body ex_checksum w "0x01" "0xAcc" TOKEN_ADDRESS 100000 0 0 "0xM"
    init_wstate
  = buy_step (script w 0%nat) "0x01" "0xAcc" "0xM" 100000 0 0 skipped.
Proof.
  intros w skipped.
  apply (@sufficient_allowance_skips_approve ex_checksum w "0x01" "0xAcc"
           TOKEN_ADDRESS 100000 0 0 "0xM" "0xM" 1000000 MAX_UINT256
           init_wstate).
  - reflexivity.
  - reflexivity.
  - split; discriminate.
  - reflexivity.
  - discriminate.
Defined.

(** X15.  An address that does not convert, or a balance read that
    fails, ends the loop with that exception: the targets after it are
    not processed, and nothing of the failed iteration is sent. *)
Theorem target_failure_ends_the_loop
  (to_checksum_address : string -> result string) (w : world)
  (pk addr token_cs : string) (amount index min_tokens : Z)
  (market_addr : string) (rest : list string) (e : exn) (s : wstate) :
  to_checksum_address market_addr = Raise e \/
  (is_ok (to_checksum_address market_addr) = true /\
   call_balanceOf (token_view (script w (iter s))) addr = Raise e) ->
  let body := target_body to_checksum_address w pk addr token_cs
                amount index min_tokens in
  for_each (market_addr :: rest) body s = (Raise e, after_skip s) /\
  forall k more,
    wallet_loop to_checksum_address w pk addr token_cs amount index min_tokens
      ((k, market_addr :: rest) :: more) s = (Raise e, after_skip s).
Proof.
  intros H body.
  assert (E : body market_addr s = (Raise e, after_skip s)).
  { unfold body. rewrite target_body_unfold.
    destruct H as [->|[Hc ->]]; [reflexivity|].
    now destruct (to_checksum_address market_addr). }
  split.
  - cbn [for_each]. unfold bind. now rewrite E.
  - intros k more. unfold wallet_loop. cbn [for_each snd]. fold body.
    unfold bind. now rewrite E.
Qed.

Lemma target_failure_ends_the_loop_witness :
  for_each ("bad" :: ["0xM"])
    (target_body (fun a => if String.eqb a "bad" then Raise ValueError else Ok a)
       (ex_world 1000000 (Ok 1) 100 100) "0x01" "0xAcc" TOKEN_ADDRESS 100000 0 0)
    init_wstate
  = (Raise ValueError, after_skip init_wstate) /\
  forall k more,
    wallet_loop (fun a => if String.eqb a "bad" then Raise ValueError else Ok a)
      (ex_world 1000000 (Ok 1) 100 100) "0x01" "0xAcc" TOKEN_ADDRESS 100000 0 0
      ((k, "bad" :: ["0xM"]) :: more) init_wstate
    = (Raise ValueError, after_skip init_wstate).
Proof.
  apply (@target_failure_ends_the_loop
           (fun a => if String.eqb a "bad" then Raise ValueError else Ok a)
           (ex_world 1000000 (Ok 1) 100 100) "0x01" "0xAcc" TOKEN_ADDRESS
           100000 0 0 "bad" ["0xM"] ValueError init_wstate).
  left. reflexivity.
Defined.

(** X16.  A worker whose RPC does not answer raises [RuntimeError]; one
    whose pending nonce cannot be read returns zero counts; one with no
    market returns zero counts too; none of them sends anything. *)
Theorem wallet_worker_early_exits
  (to_checksum_address address_of_key : string -> result string) (w : world)
  (pk : string) (spenders_by_oracle : list (Z * list string))
  (token_addr : string) (amount index min_tokens : Z)
  (proxy_url : option string) :
  let run := wallet_worker to_checksum_address address_of_key w pk
               spenders_by_oracle token_addr amount index min_tokens
               proxy_url init_wstate in
  (connected w proxy_url = false -> run = (Raise RuntimeError, init_wstate)) /\
  (forall addr token_cs e,
      connected w proxy_url = true ->
      address_of_key pk = Ok addr ->
      to_checksum_address token_addr = Ok token_cs ->
      pending_nonce w = Raise e ->
      run = (Ok (addr, 0, 0, 0), init_wstate)) /\
  (forall addr token_cs n,
      connected w proxy_url = true ->
      address_of_key pk = Ok addr ->
      to_checksum_address token_addr = Ok token_cs ->
      pending_nonce w = Ok n ->
      targets_of spenders_by_oracle = [] ->
      run = (Ok (addr, 0, 0, 0), mk_wstate n 0 0 0 0 [])).
Proof.
  intros run. subst run.
  unfold wallet_worker, bind, lift, ret, raise, set_nonce, modify, get.
  repeat split.
  - intros ->. reflexivity.
  - intros addr token_cs e -> -> -> ->. reflexivity.
  - intros addr token_cs n -> -> -> -> Ht. simpl.
    assert (L : forall s,
               wallet_loop to_checksum_address w pk addr token_cs
                 amount index min_tokens spenders_by_oracle s = (Ok tt, s)).
    { intros s. unfold wallet_loop, targets_of in *.
      induction spenders_by_oracle as [|[k l] r IH]; [reflexivity|].
      simpl in Ht. apply app_eq_nil in Ht. destruct Ht as [-> Ht].
      cbn [for_each snd]. unfold bind at 1. unfold ret at 1. now apply IH. }
    now rewrite L.
Qed.

Lemma wallet_worker_early_exits_witness :
  wallet_worker ex_checksum ex_address
    (mk_world (fun _ => true) (Raise (RpcError 429))
       (fun _ => ex_script 1000000 (Ok 1) 100 100))
    "0x01" [(0, ["0xM"])] TOKEN_ADDRESS 100000 0 0 None init_wstate
  = (Ok ("0xAcc", 0, 0, 0), init_wstate).
Proof.
  apply (proj1 (proj2
           (wallet_worker_early_exits ex_checksum ex_address
              (mk_world (fun _ => true) (Raise (RpcError 429))
                 (fun _ => ex_script 1000000 (Ok 1) 100 100))
              "0x01" [(0, ["0xM"])] TOKEN_ADDRESS 100000 0 0 None))
           "0xAcc" TOKEN_ADDRESS (RpcError 429)); reflexivity.
Defined.

(** X17.  Every attempt of [send_raw_with_retry] submits the payload it
    was given, the attempts being numbered 1, 2; the node accepts at most
    one of them, exactly when a hash is returned, and that accepted send
    is the last event; when an error is raised both attempts failed and
    the error is the second's. *)
Theorem send_raw_with_retry_payload (send : Z -> result txhash)
  (rnd : Z -> PyFloat.float) (raw : signed) (s : wstate) :
  let run := send_raw_with_retry send rnd raw s in
  exists evs,
    snd run = add_events s evs /\
    Forall (fun kt => snd kt = raw_transaction raw) (send_attempts evs) /\
    map fst (send_attempts evs)
      = firstn (List.length (send_attempts evs)) [1; 2] /\
    sent_txs evs = (if is_ok (fst run) then [raw_transaction raw] else []) /\
    match fst run with
    | Ok h => exists k, send k = Ok h /\
                        last evs (EvSleep (S754_zero false)) = EvSend k raw (Ok h)
    | Raise e => is_ok (send 1) = false /\ send 2 = Raise e
    end.
Proof.
  intros run. subst run. rewrite send_raw_with_retry_eq.
  destruct (send 1) as [h1|e1] eqn:S1; [|destruct (send 2) as [h2|e2] eqn:S2];
    eexists; (split; [reflexivity|]); simpl;
    (split; [repeat (apply Forall_cons; [reflexivity|]); apply Forall_nil|]);
    (split; [reflexivity|]); (split; [reflexivity|]).
  - exists 1. now split.
  - exists 2. now split.
  - now split.
Qed.

(** ** The nonce rule *)

Section NonceRule.

Lemma count_cons_send_ok k raw h (evs : list event) :
  count_confirmed (EvSend k raw (Ok h) :: evs) = count_confirmed evs /\
  count_buys (EvSend k raw (Ok h) :: evs)
  = bump (is_buy (raw_transaction raw)) + count_buys evs.
Proof.
  change (EvSend k raw (Ok h) :: evs) with ([EvSend k raw (Ok h)] ++ evs).
  rewrite count_confirmed_app, count_buys_app. split.
  - reflexivity.
  - f_equal. unfold count_buys. simpl.
    now destruct (is_buy (raw_transaction raw)).
Qed.

Lemma count_cons_receipt h r (evs : list event) :
  count_confirmed (EvReceipt h r :: evs)
  = bump (receipt_confirmed r) + count_confirmed evs /\
  count_buys (EvReceipt h r :: evs) = count_buys evs.
Proof.
  change (EvReceipt h r :: evs) with ([EvReceipt h r] ++ evs).
  rewrite count_confirmed_app, count_buys_app. split.
  - f_equal. unfold count_confirmed. simpl.
    now destruct (receipt_confirmed r).
  - reflexivity.
Qed.

Lemma count_cons_other (e : event) (evs : list event) :
  sent_txs [e] = [] -> receipts [e] = [] ->
  count_confirmed (e :: evs) = count_confirmed evs /\
  count_buys (e :: evs) = count_buys evs.
Proof.
  intros Hs Hr. change (e :: evs) with ([e] ++ evs).
  rewrite count_confirmed_app, count_buys_app.
  unfold count_confirmed at 1, count_buys at 1. now rewrite Hs, Hr.
Qed.

Lemma nonce_rule_app (a b : list event) (n : Z) :
  nonce_rule n (a ++ b) <->
  nonce_rule n a /\ nonce_rule (n + count_confirmed a + count_buys a) b.
Proof.
  revert n. induction a as [|e a IH]; intros n.
  - cbn [app nonce_rule]. change (count_confirmed []) with 0.
    change (count_buys []) with 0. rewrite !Z.add_0_r. tauto.
  - destruct e as [k raw [h|x]|h r|d]; cbn [app nonce_rule].
    + destruct (count_cons_send_ok k raw h a) as [-> ->]. rewrite IH.
      replace (n + bump (is_buy (raw_transaction raw)) + count_confirmed a
               + count_buys a)
        with (n + count_confirmed a
              + (bump (is_buy (raw_transaction raw)) + count_buys a)) by lia.
      tauto.
    + destruct (count_cons_other (EvSend k raw (Raise x)) a eq_refl eq_refl)
        as [-> ->]. apply IH.
    + destruct (count_cons_receipt h r a) as [-> ->]. rewrite IH.
      replace (n + bump (receipt_confirmed r) + count_confirmed a + count_buys a)
        with (n + (bump (receipt_confirmed r) + count_confirmed a)
              + count_buys a) by lia.
      tauto.
    + destruct (count_cons_other (EvSleep d) a eq_refl eq_refl) as [-> ->].
      apply IH.
Qed.

Lemma count_confirmed_none (evs : list event) :
  Forall (fun r => receipt_confirmed r = false) (receipts evs) ->
  count_confirmed evs = 0.
Proof.
  unfold count_confirmed. intros H.
  induction H as [|r l Hr Hl IH]; simpl; [reflexivity|]. now rewrite Hr.
Qed.

Lemma count_buys_none (evs : list event) :
  sent_txs evs = [] -> count_buys evs = 0.
Proof. unfold count_buys. now intros ->. Qed.

Lemma approve_step_nonce_rule sc pk addr token_cs market_cs s :
  exists evs,
    trace (snd (approve_step sc pk addr token_cs market_cs s)) = trace s ++ evs /\
    nonce_rule (nonce s) evs.
Proof.
  destruct s as [n sa sb sk it tr].
  unfold approve_step, allowance_enough, wait_for_transaction_receipt.
  unfold try_except, bind, lift, ret, get, sleep. simpl.
  destruct (call_allowance (token_view sc) addr market_cs) as [val|e0];
    [destruct (ALLOWANCE_THRESHOLD <=? val)|].
  1: { exists []. simpl. now rewrite app_nil_r. }
  all: destruct (approve_gas_price sc) as [gp|e1];
       [destruct (approve_build sc) as [[]|e2];
        [destruct (approve_sign sc) as [[]|e3]|]|].
  all: try rewrite send_raw_with_retry_eq.
  all: split_results.
  all: rewrite ?emit_eq, ?add_events_app.
  all: unfold incr_nonce, incr_sent_approve, modify, add_events; simpl;
       rewrite <- ?app_assoc; simpl.
  all: first [ eexists; split; [reflexivity|]; simpl; tauto
             | exists []; split; [now rewrite app_nil_r|exact I] ].
Qed.

Lemma buy_step_nonce_rule sc pk addr market_cs amount index min_tokens s :
  exists evs,
    trace (snd (buy_step sc pk addr market_cs amount index min_tokens s))
    = trace s ++ evs /\
    nonce_rule (nonce s) evs.
Proof.
  destruct s as [n sa sb sk it tr].
  unfold buy_step. unfold try_except, bind, lift, ret, get, sleep. simpl.
  destruct (buy_gas_price sc) as [gp|e1];
    [destruct (buy_build sc) as [[]|e2];
     [destruct (buy_sign sc) as [[]|e3]|]|].
  all: try rewrite send_raw_with_retry_eq.
  all: split_results.
  all: rewrite ?emit_eq, ?add_events_app.
  all: unfold incr_nonce, incr_sent_buy, modify, add_events; simpl;
       rewrite <- ?app_assoc; simpl.
  all: first [ eexists; split; [reflexivity|]; simpl; tauto
             | exists []; split; [now rewrite app_nil_r|exact I] ].
Qed.

End NonceRule.

Section NonceRuleRun.

Variable to_checksum_address : string -> result string.
Variable address_of_key : string -> result string.

Lemma target_body_nonce_rule w pk addr token_cs amount index min_tokens m :
  stretch (fun s evs s' => accounts s evs s' /\ nonce_rule (nonce s) evs)
    (target_body to_checksum_address w pk addr token_cs
       amount index min_tokens m).
Proof.
  apply (@stretch_target_body to_checksum_address
           (fun s evs s' => accounts s evs s' /\ nonce_rule (nonce s) evs)).
  - intros s. split; [apply accounts_skip|exact I].
  - intros s e1 s1 e2 s2 [A1 N1] [A2 N2]. split.
    + eapply accounts_trans; eassumption.
    + apply nonce_rule_app. split; [exact N1|].
      now rewrite <- (acc_nonce A1).
  - intros sc market_cs _. split; intros s.
    + destruct (approve_step_accounts sc pk addr token_cs market_cs s)
        as [e1 [T1 A1]].
      destruct (approve_step_nonce_rule sc pk addr token_cs market_cs s)
        as [e2 [T2 N2]].
      rewrite T1 in T2. apply app_inv_head in T2. subst e2.
      exists e1. split; [exact T1|]. now split.
    + destruct (buy_step_accounts sc pk addr market_cs amount index
                  min_tokens s) as [e1 [T1 A1]].
      destruct (buy_step_nonce_rule sc pk addr market_cs amount index
                  min_tokens s) as [e2 [T2 N2]].
      rewrite T1 in T2. apply app_inv_head in T2. subst e2.
      exists e1. split; [exact T1|]. now split.
Qed.

(** The trace of a run follows the nonce rule from the pending nonce. *)
Lemma wallet_worker_nonce_rule w pk spenders_by_oracle token_addr
  amount index min_tokens proxy_url :
  nonce_rule (start_nonce w)
    (trace (snd (wallet_worker to_checksum_address address_of_key w pk
                   spenders_by_oracle token_addr amount index min_tokens
                   proxy_url init_wstate))).
Proof.
  set (R := fun s evs s' => accounts s evs s' /\ nonce_rule (nonce s) evs).
  assert (R_same : forall s, R s [] s)
    by (intros s; split; [apply accounts_same|exact I]).
  assert (R_trans : forall s e1 s1 e2 s2,
             R s e1 s1 -> R s1 e2 s2 -> R s (e1 ++ e2) s2).
  { intros s e1 s1 e2 s2 [A1 N1] [A2 N2]. split.
    - eapply accounts_trans; eassumption.
    - apply nonce_rule_app. split; [exact N1|].
      now rewrite <- (acc_nonce A1). }
  destruct (@wallet_worker_outcome to_checksum_address address_of_key R
              R_same R_trans w pk spenders_by_oracle token_addr
              amount index min_tokens proxy_url
              (fun addr token_cs m _ _ _ =>
                 target_body_nonce_rule w pk addr token_cs amount index
                   min_tokens m))
    as [[E _]|[[E _]|
        [addr [token_cs [n [evs [_ [_ [_ [N [T [[_ Hr] _]]]]]]]]]]]].
  - rewrite E. exact I.
  - rewrite E. exact I.
  - rewrite T. unfold start_nonce. rewrite N. exact Hr.
Qed.

End NonceRuleRun.

Section NonceRuleUse.

(** Between two accepted transactions with no accepted one in between,
    the nonce grows by one for a buy and by the number of receipts with
    status 1 obtained in between. *)
Lemma nonce_rule_next (n : Z) pre k1 raw1 h1 mid k2 raw2 h2 post :
  nonce_rule n
    (pre ++ EvSend k1 raw1 (Ok h1) :: mid ++ EvSend k2 raw2 (Ok h2) :: post) ->
  sent_txs mid = [] ->
  tx_nonce (raw_transaction raw2)
  = tx_nonce (raw_transaction raw1)
    + bump (is_buy (raw_transaction raw1)) + count_confirmed mid.
Proof.
  intros H Hm. apply nonce_rule_app in H. destruct H as [_ H].
  cbn [nonce_rule] in H. destruct H as [H1 H].
  apply nonce_rule_app in H. destruct H as [_ H].
  cbn [nonce_rule] in H. destruct H as [H2 _].
  rewrite H2, H1, (count_buys_none _ Hm). lia.
Qed.

End NonceRuleUse.

(** C2, amended.  In every run of [wallet_worker] the nonces of the
    transactions the node accepted, in the order they were sent, never
    decrease, whatever the number of targets and of retries; they are
    strictly increasing, no value used twice, when every wait for the
    receipt of an approve gave status 1.  The run follows the nonce rule
    from the pending nonce: the nonce advances by one after an accepted
    buy and after a receipt with status 1 only; so after an accepted
    approve whose receipt wait failed or gave another status, the next
    transaction the node accepts carries the nonce of that approve. *)
Theorem nonces_increasing_when_confirmed
  to_checksum_address address_of_key w pk spenders_by_oracle token_addr
  buy_amount_smallest buy_outcome_index buy_min_tokens proxy_url :
  let t := trace (snd (wallet_worker to_checksum_address address_of_key
                         w pk spenders_by_oracle token_addr
                         buy_amount_smallest buy_outcome_index
                         buy_min_tokens proxy_url init_wstate)) in
  nondecreasing (sent_nonces t) /\
  (all_confirmed t -> strictly_increasing (sent_nonces t)) /\
  nonce_rule (start_nonce w) t /\
  (forall pre k1 raw1 h1 mid k2 raw2 h2 post,
      t = pre ++ EvSend k1 raw1 (Ok h1) :: mid
              ++ EvSend k2 raw2 (Ok h2) :: post ->
      sent_txs mid = [] ->
      tx_nonce (raw_transaction raw2)
      = tx_nonce (raw_transaction raw1)
        + bump (is_buy (raw_transaction raw1)) + count_confirmed mid) /\
  (forall pre k1 raw1 h1 mid k2 raw2 h2 post,
      t = pre ++ EvSend k1 raw1 (Ok h1) :: mid
              ++ EvSend k2 raw2 (Ok h2) :: post ->
      sent_txs mid = [] ->
      is_buy (raw_transaction raw1) = false ->
      Forall (fun r => receipt_confirmed r = false) (receipts mid) ->
      tx_nonce (raw_transaction raw2) = tx_nonce (raw_transaction raw1)).
Proof.
  intros t.
  destruct (wallet_worker_trace to_checksum_address address_of_key
              buy_amount_smallest buy_outcome_index buy_min_tokens
              w pk spenders_by_oracle token_addr proxy_url) as [L [S _]].
  pose proof (wallet_worker_nonce_rule to_checksum_address address_of_key
                w pk spenders_by_oracle token_addr buy_amount_smallest
                buy_outcome_index buy_min_tokens proxy_url) as N.
  fold t in L, S, N. split; [exact L|]. split; [|split; [exact N|split]].
  - intros H. split.
    + now apply S.
    + now apply StronglySorted_lt_NoDup, S.
  - intros pre k1 raw1 h1 mid k2 raw2 h2 post E Hm.
    rewrite E in N. exact (nonce_rule_next _ _ _ _ _ _ _ _ _ _ N Hm).
  - intros pre k1 raw1 h1 mid k2 raw2 h2 post E Hm Hb Hr.
    rewrite E in N.
    rewrite (nonce_rule_next _ _ _ _ _ _ _ _ _ _ N Hm), Hb,
      (count_confirmed_none _ Hr). simpl. lia.
Qed.

(** Two targets with every receipt confirmed: the nonces are strictly
    increasing.  One target whose approve gets a receipt with status 0:
    the buy carries the nonce of the approve. *)
Lemma nonces_increasing_when_confirmed_witness :
  strictly_increasing
    (sent_nonces (trace (snd (ex_run (ex_world 1000000 (Ok 1) 100 100)
                                ["0xM"; "0xN"] 100000 0 0)))) /\
  tx_nonce (mk_tx "0xM" "0xAcc" (buy 100000 0 100000) 0 5 GAS_LIMIT_BUY 120
              CHAIN_ID)
  = tx_nonce (mk_tx TOKEN_ADDRESS "0xAcc" (approve "0xM" MAX_UINT256) 0 5
                GAS_LIMIT_APPROVE 100 CHAIN_ID).
Proof.
  split.
  - apply (proj1 (proj2 (nonces_increasing_when_confirmed ex_checksum
                    ex_address (ex_world 1000000 (Ok 1) 100 100) "0x01"
                    [(0, ["0xM"; "0xN"])] TOKEN_ADDRESS 100000 0 0 None))).
    vm_compute. repeat constructor.
  - apply (proj2 (proj2 (proj2 (proj2
             (nonces_increasing_when_confirmed ex_checksum ex_address
                (ex_world 1000000 (Ok 0) 100 120) "0x01" [(0, ["0xM"])]
                TOKEN_ADDRESS 100000 0 0 None))))
             [] 1
             (mk_signed (mk_tx TOKEN_ADDRESS "0xAcc" (approve "0xM" MAX_UINT256)
                           0 5 GAS_LIMIT_APPROVE 100 CHAIN_ID) "0x01")
             11 [EvReceipt 11 (Ok 0)] 1
             (mk_signed (mk_tx "0xM" "0xAcc" (buy 100000 0 100000) 0 5
                           GAS_LIMIT_BUY 120 CHAIN_ID) "0x01")
             22
             [EvSleep (PyFloat.add SLEEP_BETWEEN_TX
                         (PyFloat.mul (S754_zero false) (PyFloat.literal 4 10)))]).
    + vm_compute. reflexivity.
    + reflexivity.
    + reflexivity.
    + repeat constructor.
Defined.

(** ** Markets processed per spelling *)

Section PerSpelling.

Variable to_checksum_address : string -> result string.
Variable address_of_key : string -> result string.
Variable cnt : list event -> nat.
Hypothesis cnt_nil : cnt [] = 0%nat.
Hypothesis cnt_app : forall a b, cnt (a ++ b) = (cnt a + cnt b)%nat.

Lemma counts_ret {A} (a : A) : counts_at_most cnt 0 (ret a).
Proof. intros s. exists []. simpl. rewrite app_nil_r, cnt_nil. now split. Qed.

Lemma counts_bind {A B} (n1 n2 : nat) (m : M A) (k : A -> M B) :
  counts_at_most cnt n1 m -> (forall a, counts_at_most cnt n2 (k a)) ->
  counts_at_most cnt (n1 + n2) (bind m k).
Proof.
  intros Hm Hk s. unfold bind. destruct (Hm s) as [e1 [T1 C1]].
  destruct (m s) as [[a|e] s1]; simpl in *.
  - destruct (Hk a s1) as [e2 [T2 C2]]. exists (e1 ++ e2). split.
    + now rewrite T2, T1, app_assoc.
    + rewrite cnt_app. lia.
  - exists e1. split; [exact T1|lia].
Qed.

Lemma counts_for_each {A} (f : A -> nat) (l : list A) (body : A -> M unit) :
  (forall x, counts_at_most cnt (f x) (body x)) ->
  counts_at_most cnt (list_sum (map f l)) (for_each l body).
Proof.
  intros Hb. induction l as [|x r IH]; simpl.
  - apply counts_ret.
  - apply counts_bind; [apply Hb|]. intros _. exact IH.
Qed.

Lemma list_sum_concat {A} (f : A -> nat) (ll : list (list A)) :
  list_sum (map (fun l => list_sum (map f l)) ll)
  = list_sum (map f (List.concat ll)).
Proof.
  induction ll as [|l r IH]; simpl; [reflexivity|].
  now rewrite map_app, list_sum_app, IH.
Qed.

Lemma list_sum_indicator {A} (p : A -> bool) (l : list A) :
  list_sum (map (fun x => if p x then 1%nat else 0%nat) l)
  = List.length (filter p l).
Proof.
  induction l as [|x r IH]; simpl; [reflexivity|].
  destruct (p x); simpl; now rewrite IH.
Qed.

(** From a bound per target to a bound for the run. *)
Lemma counts_wallet_worker (p : string -> bool) w pk spenders_by_oracle
  token_addr amount index min_tokens proxy_url :
  (forall addr token_cs m,
      counts_at_most cnt (if p m then 1 else 0)
        (target_body to_checksum_address w pk addr token_cs
           amount index min_tokens m)) ->
  (cnt (trace (snd (wallet_worker to_checksum_address address_of_key w pk
                      spenders_by_oracle token_addr amount index min_tokens
                      proxy_url init_wstate)))
   <= List.length (filter p (targets_of spenders_by_oracle)))%nat.
Proof.
  intros H.
  unfold wallet_worker, bind, lift, ret, raise, set_nonce, modify, get.
  destruct (connected w proxy_url); simpl; [|rewrite cnt_nil; lia].
  destruct (address_of_key pk) as [addr|]; simpl; [|rewrite cnt_nil; lia].
  destruct (to_checksum_address token_addr) as [token_cs|]; simpl;
    [|rewrite cnt_nil; lia].
  destruct (pending_nonce w) as [n|]; simpl; [|rewrite cnt_nil; lia].
  assert (L : counts_at_most cnt
                (List.length (filter p (targets_of spenders_by_oracle)))
                (wallet_loop to_checksum_address w pk addr token_cs
                   amount index min_tokens spenders_by_oracle)).
  { unfold wallet_loop, targets_of.
    rewrite <- list_sum_indicator, <- list_sum_concat, map_map.
    apply (counts_for_each
             (fun item => list_sum (map (fun x => if p x then 1%nat else 0%nat)
                                      (snd item)))).
    intros item. apply counts_for_each. intros m. apply H. }
  match goal with
  | |- context [wallet_loop _ _ _ _ _ _ _ _ _ ?s0] =>
      destruct (L s0) as [evs [T C]];
      destruct (wallet_loop to_checksum_address w pk addr token_cs
                  amount index min_tokens spenders_by_oracle s0)
        as [[[]|e] s1]
  end; simpl in *; now rewrite T.
Qed.

End PerSpelling.

Section PerSpellingCounts.

Variable to_checksum_address : string -> result string.

Lemma count_buys_for_app (c : string) (a b : list event) :
  count_buys_for c (a ++ b) = (count_buys_for c a + count_buys_for c b)%nat.
Proof.
  unfold count_buys_for. now rewrite sent_txs_app, filter_app, length_app.
Qed.

Lemma count_approves_for_app (c : string) (a b : list event) :
  count_approves_for c (a ++ b)
  = (count_approves_for c a + count_approves_for c b)%nat.
Proof.
  unfold count_approves_for. now rewrite sent_txs_app, filter_app, length_app.
Qed.

(** One iteration sends for the market of its address only, one approve
    and one buy at most. *)
Lemma target_body_per_spelling (c : string) w pk addr token_cs
  amount index min_tokens m s :
  exists evs,
    trace (snd (target_body to_checksum_address w pk addr token_cs
                  amount index min_tokens m s)) = trace s ++ evs /\
    (count_buys_for c evs
     <= if converts_to to_checksum_address c m then 1 else 0)%nat /\
    (count_approves_for c evs
     <= if converts_to to_checksum_address c m then 1 else 0)%nat.
Proof.
  destruct (target_body_split to_checksum_address w pk addr token_cs
              amount index min_tokens m s) as [E|[market_cs [C E]]]; rewrite E.
  - exists []. simpl. rewrite app_nil_r.
    unfold count_buys_for, count_approves_for. simpl.
    destruct (converts_to to_checksum_address c m); repeat split; lia.
  - destruct (approve_step_full (script w (iter s)) pk addr token_cs market_cs
                (after_skip s)) as [ea [skipped [Ea O]]].
    rewrite Ea. cbn [snd].
    destruct (buy_step_cases (script w (iter s)) pk addr market_cs
                amount index min_tokens
                (after_approve (after_skip s) (some_confirmed ea) skipped ea))
      as [eb [Eb [_ Hb]]].
    rewrite Eb. exists (ea ++ eb). split; [simpl; now rewrite app_assoc|].
    rewrite count_buys_for_app, count_approves_for_app.
    unfold converts_to. rewrite C.
    unfold count_buys_for, count_approves_for.
    destruct O as [[_ [-> _]]|[_ [[-> _]|[gp [_ [-> _]]]]]];
      destruct Hb as [->|[gp' ->]]; cbn [filter is_buy tx_data tx_market tx_to
                                         sent_txs flat_map app andb negb
                                         List.length];
      destruct (String.eqb market_cs c); simpl; split; lia.
Qed.

End PerSpellingCounts.

Section AtMostOne.

Lemma filter_at_most_one {A} (p : A -> bool) (l : list A) :
  NoDup l ->
  (forall a b, In a l -> In b l -> p a = true -> p b = true -> a = b) ->
  (List.length (filter p l) <= 1)%nat.
Proof.
  induction 1 as [|x r Hx Hr IH]; intros Hinj; simpl; [lia|].
  destruct (p x) eqn:Px.
  - assert (E : filter p r = []).
    { destruct (filter p r) as [|y f] eqn:F; [reflexivity|].
      assert (Hy : In y (filter p r)) by (rewrite F; now left).
      apply filter_In in Hy. destruct Hy as [Hy Py].
      assert (x = y)
        by (apply Hinj; [now left|now right|exact Px|exact Py]).
      subst y. contradiction. }
    rewrite E. simpl. lia.
  - apply IH. intros a b Ha Hb. apply Hinj; now right.
Qed.

Lemma converts_to_true (to_checksum_address : string -> result string)
  (c m : string) :
  converts_to to_checksum_address c m = true <-> to_checksum_address m = Ok c.
Proof.
  unfold converts_to. destruct (to_checksum_address m) as [c'|e].
  - rewrite String.eqb_eq. split; congruence.
  - split; discriminate.
Qed.

End AtMostOne.

(** C9, as stated, fails.  The list holds one market address in two
    spellings; both are kept, and the wallet buys that market twice. *)
Lemma two_spellings_processed_twice :
  let map := _prepare_oracle_map_from_markets [ex_market_lower; ex_market_cs] in
  let run := wallet_worker ex_checksum_spellings ex_address ex_world_spellings
               "0x01" map ex_token_cs 100000 0 0 None init_wstate in
  map = [(0, [ex_market_lower; ex_market_cs])] /\
  fst run = Ok ("0xAcc", 1, 2, 1) /\
  List.map tx_market (filter is_buy (sent_txs (trace (snd run))))
  = [ex_market_cs; ex_market_cs] /\
  ~ (count_buys_for ex_market_cs (trace (snd run)) <= 1)%nat.
Proof.
  intros map run.
  assert (E : count_buys_for ex_market_cs (trace (snd run)) = 2%nat)
    by (vm_compute; reflexivity).
  repeat split; try (vm_compute; reflexivity).
  rewrite E. lia.
Qed.

(** C9, amended.  [_prepare_oracle_map_from_markets] returns the map with
    the one key 0, bound to the input list without its empty entries and
    without repeated strings, first occurrences kept in their order;
    hence every task that [run_for_markets] submits walks a list in which
    no address string occurs twice, and a worker given this map begins
    at most one loop iteration per distinct string; for every market it
    sends at most as many buys, and as many approves, as there are
    distinct strings in the input that convert to the address of that
    market: at most one of each when no two different strings of the
    input convert to that address. *)
Theorem prepare_oracle_map_spec (market_addresses : list string) :
  let uniq := keep_first_occurrences (filter PyStr.truthy market_addresses) in
  _prepare_oracle_map_from_markets market_addresses = [(0, uniq)] /\
  NoDup uniq /\
  (forall a, In a uniq <-> In a market_addresses /\ a <> "") /\
  (forall token_address amount index proxies max_workers proxies_file
          keys_file tasks,
      run_for_markets_tasks market_addresses token_address amount index
        proxies max_workers proxies_file keys_file = Ok tasks ->
      Forall (fun t =>
                task_spenders t = [(0, uniq)] /\
                forall a, (count_occ string_dec
                             (List.concat (map snd (task_spenders t))) a <= 1)%nat)
        tasks) /\
  (forall to_checksum_address address_of_key w pk token_addr
          amount index min_tokens proxy_url,
      (iter (snd (wallet_worker to_checksum_address address_of_key w pk
                    (_prepare_oracle_map_from_markets market_addresses)
                    token_addr amount index min_tokens proxy_url init_wstate))
       <= List.length uniq)%nat) /\
  (forall to_checksum_address address_of_key w pk token_addr
          amount index min_tokens proxy_url c,
      let t := trace (snd (wallet_worker to_checksum_address address_of_key
                             w pk
                             (_prepare_oracle_map_from_markets market_addresses)
                             token_addr amount index min_tokens proxy_url
                             init_wstate)) in
      (count_buys_for c t
       <= List.length (filter (converts_to to_checksum_address c) uniq))%nat /\
      (count_approves_for c t
       <= List.length (filter (converts_to to_checksum_address c) uniq))%nat) /\
  (forall to_checksum_address address_of_key w pk token_addr
          amount index min_tokens proxy_url c,
      (forall a b, In a market_addresses -> In b market_addresses ->
                   to_checksum_address a = Ok c ->
                   to_checksum_address b = Ok c -> a = b) ->
      let t := trace (snd (wallet_worker to_checksum_address address_of_key
                             w pk
                             (_prepare_oracle_map_from_markets market_addresses)
                             token_addr amount index min_tokens proxy_url
                             init_wstate)) in
      (count_buys_for c t <= 1)%nat /\ (count_approves_for c t <= 1)%nat).
Proof.
  intros uniq.
  assert (E : _prepare_oracle_map_from_markets market_addresses = [(0, uniq)]).
  { unfold _prepare_oracle_map_from_markets. rewrite prepare_uniq_loop_spec.
    simpl. unfold uniq. do 3 f_equal. apply filter_ext. intros x.
    apply andb_true_r. }
  assert (ND : NoDup uniq) by apply keep_first_NoDup.
  assert (M : forall a, In a uniq <-> In a market_addresses /\ a <> "").
  { intros a. unfold uniq. rewrite keep_first_In, filter_In.
    destruct a; simpl; intuition congruence. }
  assert (T : targets_of [(0, uniq)] = uniq)
    by (unfold targets_of; simpl; apply app_nil_r).
  assert (B : forall to_checksum_address address_of_key w pk token_addr
                     amount index min_tokens proxy_url c,
             let t := trace (snd (wallet_worker to_checksum_address
                                    address_of_key w pk [(0, uniq)]
                                    token_addr amount index min_tokens
                                    proxy_url init_wstate)) in
             (count_buys_for c t
              <= List.length (filter (converts_to to_checksum_address c) uniq))%nat /\
             (count_approves_for c t
              <= List.length (filter (converts_to to_checksum_address c) uniq))%nat).
  { intros cs ak w pk token_addr amount index min_tokens proxy_url c t.
    subst t. rewrite <- T at 2 4. split.
    - apply (@counts_wallet_worker cs ak (count_buys_for c) eq_refl
               (count_buys_for_app c) (converts_to cs c)).
      intros addr token_cs m s.
      destruct (target_body_per_spelling cs c w pk addr token_cs amount index
                  min_tokens m s) as [evs [Tr [Hb _]]].
      exists evs. now split.
    - apply (@counts_wallet_worker cs ak (count_approves_for c) eq_refl
               (count_approves_for_app c) (converts_to cs c)).
      intros addr token_cs m s.
      destruct (target_body_per_spelling cs c w pk addr token_cs amount index
                  min_tokens m s) as [evs [Tr [_ Ha]]].
      exists evs. now split. }
  split; [exact E|]. split; [exact ND|]. split; [exact M|].
  split; [|split; [intros; rewrite E; apply wallet_worker_begins|split]].
  - intros token_address amount index proxies max_workers proxies_file
      keys_file tasks.
    unfold run_for_markets_tasks.
    destruct (to_smallest_unit _ _); [|discriminate].
    destruct (load_private_keys keys_file) as [[|k ks]|]; try discriminate.
    destruct (thread_pool _); [|discriminate].
    generalize (enumerate 1 (k :: ks)). intros ips H. injection H as <-.
    rewrite E. apply Forall_map, Forall_forall. intros ip _. simpl.
    split; [reflexivity|]. intros x. rewrite app_nil_r.
    now apply NoDup_count_le_1.
  - intros cs ak w pk token_addr amount index min_tokens proxy_url c.
    rewrite E. apply B.
  - intros cs ak w pk token_addr amount index min_tokens proxy_url c Hinj.
    rewrite E. cbv zeta.
    assert (F : (List.length (filter (converts_to cs c) uniq) <= 1)%nat).
    { apply filter_at_most_one; [exact ND|].
      intros a b Ha Hb Pa Pb. apply converts_to_true in Pa, Pb.
      apply M in Ha, Hb. apply Hinj; tauto. }
    destruct (B cs ak w pk token_addr amount index min_tokens proxy_url c)
      as [Hb Ha].
    split; lia.
Qed.

(** One key, the market list [0xA, 0xB, 0xA]: the task walks [0xA, 0xB],
    and the worker buys [0xA] once at most. *)
Lemma prepare_oracle_map_witness :
  Forall (fun t =>
            task_spenders t = [(0, ["0xA"; "0xB"])] /\
            forall a, (count_occ string_dec
                         (List.concat (map snd (task_spenders t))) a <= 1)%nat)
    [mk_task "0x01" [(0, ["0xA"; "0xB"])] TOKEN_ADDRESS 100000 0 0 None] /\
  Nat.le
    (count_buys_for "0xA"
       (trace (snd (wallet_worker ex_checksum ex_address
                      (ex_world 1000000 (Ok 1) 100 100) "0x01"
                      (_prepare_oracle_map_from_markets ["0xA"; "0xB"; "0xA"])
                      TOKEN_ADDRESS 100000 0 0 None init_wstate))))
    1%nat.
Proof.
  split.
  - exact (proj1 (proj2 (proj2 (proj2
             (prepare_oracle_map_spec ["0xA"; "0xB"; "0xA"]))))
             "" (PyFloat.literal 1 10) 0 (Some []) None None (Some ["01"])
             [mk_task "0x01" [(0, ["0xA"; "0xB"])] TOKEN_ADDRESS 100000 0 0 None]
             eq_refl).
  - destruct (prepare_oracle_map_spec ["0xA"; "0xB"; "0xA"])
      as [_ [_ [_ [_ [_ [_ H]]]]]].
    apply (H ex_checksum ex_address (ex_world 1000000 (Ok 1) 100 100) "0x01"
             TOKEN_ADDRESS 100000 0 0 None "0xA").
    intros a b _ _ Ha Hb. unfold ex_checksum in *. congruence.
Defined.
